(** * Cotizador_Demo: lot dataset adapter, normalisation helpers and
    proforma engine, embedded from the JavaScript / TypeScript sources.

    Sources: [server.mjs] (CSV-backed API), [lib/lotesService.mjs]
    (helpers of the database-backed adapter),
    [scripts/seed-supabase-from-csv.mjs] (bulk load) and [src/App.tsx]
    (client helpers, quote and proforma).

    Modelling conventions.

    - JavaScript strings are [string]s of 8-bit characters.  Case mapping
      and white space follow the ASCII part of ECMAScript: [toUpperCase]
      maps [a-z] to [A-Z], [trim] removes TAB, LF, VT, FF, CR and SPACE.
    - JavaScript numbers are exact rationals ([Q]): a decimal literal
      denotes its exact value (the IEEE double is its nearest neighbour)
      and arithmetic does not round.  [parseFloat] overflows to
      [Infinity] at the binary64 threshold.  Integers produced by
      [parseInt] are [Z] and print in plain decimal.
    - [undefined] and [null] cells or payload members are [None].
    - The wall clock is an explicit [Date] argument of whatever reads it.
    - The file [lotes.csv] is represented by what [Papa.parse] makes of
      it (data rows and header fields); writing with [Papa.unparse] and
      reading back rebuilds every row over the written columns.
    - The [updatedAt] / [savedAt] members of the responses are left out. *)

From Stdlib Require Import ZArith QArith Qround Qminmax Qabs Qpower Lqa Lia.
From Stdlib Require Import Ascii String DecimalString DecimalPos.
From stdpp Require Import base option list strings gmap.

Close Scope Q_scope.
Open Scope string_scope.

(** ** ECMAScript primitives used by the sources *)
Module JS.

(** A JavaScript number: NaN, an infinity, or a finite value. *)
Inductive Number :=
  | NaN
  | Infinity (negative : bool)
  | Finite (q : Q).

(** Values that can reach [cleanNumber]: a CSV cell or a JSON member. *)
Inductive Value :=
  | VUndefined
  | VNull
  | VBool (b : bool)
  | VNum (q : Q)
  | VStr (s : string).

Definition isWhiteSpace (c : ascii) : bool :=
  let n := nat_of_ascii c in
  (Nat.leb 9 n && Nat.leb n 13) || Nat.eqb n 32.

Definition isDigit (c : ascii) : bool :=
  let n := nat_of_ascii c in Nat.leb 48 n && Nat.leb n 57.

Definition digitValue (c : ascii) : Z := Z.of_nat (nat_of_ascii c) - 48.

Definition upperChar (c : ascii) : ascii :=
  let n := nat_of_ascii c in
  if Nat.leb 97 n && Nat.leb n 122 then ascii_of_nat (n - 32) else c.

(** [String.prototype.toUpperCase] *)
Fixpoint toUpperCase (s : string) : string :=
  match s with
  | EmptyString => EmptyString
  | String c r => String (upperChar c) (toUpperCase r)
  end.

(** [String.prototype.trimStart] *)
Fixpoint trimStart (s : string) : string :=
  match s with
  | EmptyString => EmptyString
  | String c r => if isWhiteSpace c then trimStart r else s
  end.

(** [String.prototype.trimEnd] *)
Fixpoint trimEnd (s : string) : string :=
  match s with
  | EmptyString => EmptyString
  | String c r =>
      match trimEnd r with
      | EmptyString => if isWhiteSpace c then EmptyString else String c EmptyString
      | t => String c t
      end
  end.

(** [String.prototype.trim] *)
Definition trim (s : string) : string := trimEnd (trimStart s).

(** The first [n] characters of [fill] repeated for ever ([cur] is what
    is left of the current copy). *)
Fixpoint fillTo (fill cur : string) (n : nat) : string :=
  match n with
  | O => EmptyString
  | S n' =>
      match cur with
      | String c r => String c (fillTo fill r n')
      | EmptyString =>
          match fill with
          | String c r => String c (fillTo fill r n')
          | EmptyString => EmptyString
          end
      end
  end.

(** [String.prototype.padStart(targetLength, fill)] *)
Definition padStart (s : string) (targetLength : nat) (fill : string) : string :=
  if Nat.leb targetLength (String.length s) then s
  else fillTo fill fill (targetLength - String.length s) ++ s.

(** [String.prototype.slice(-n)]: the last [n] characters. *)
Definition sliceLast (n : nat) (s : string) : string :=
  substring (String.length s - n) n s.

(** [String(n)] for an integer-valued number. *)
Definition stringOfInt (n : Z) : string := NilZero.string_of_int (Z.to_int n).

(** Longest prefix of decimal digits, and what follows it. *)
Fixpoint spanDigits (s : string) : string * string :=
  match s with
  | EmptyString => (EmptyString, EmptyString)
  | String c r =>
      if isDigit c then let '(d, t) := spanDigits r in (String c d, t)
      else (EmptyString, s)
  end.

(** Value of a digit string read left to right from [acc]. *)
Fixpoint digitsValue (acc : Z) (s : string) : Z :=
  match s with
  | EmptyString => acc
  | String c r => digitsValue (10 * acc + digitValue c) r
  end.

(** Optional sign in front of a numeric literal. *)
Definition readSign (s : string) : bool * string :=
  match s with
  | String "-" r => (true, r)
  | String "+" r => (false, r)
  | _ => (false, s)
  end.

(** [Number.parseInt(s, 10)]; [None] is NaN. *)
Definition parseInt (s : string) : option Z :=
  let '(neg, body) := readSign (trimStart s) in
  let '(ds, _) := spanDigits body in
  match ds with
  | EmptyString => None
  | _ => Some (if neg then - digitsValue 0 ds else digitsValue 0 ds)%Z
  end.

(** Exponent part [e[+-]digits] of a decimal literal, 0 when absent. *)
Definition readExponent (s : string) : Z :=
  match s with
  | String c r =>
      if Ascii.eqb c "e" || Ascii.eqb c "E" then
        let '(neg, body) := readSign r in
        let '(ds, _) := spanDigits body in
        match ds with
        | EmptyString => 0%Z
        | _ => (if neg then - digitsValue 0 ds else digitsValue 0 ds)%Z
        end
      else 0%Z
  | EmptyString => 0%Z
  end.

(** Magnitudes at or above this bound round to an infinity in binary64. *)
Definition overflowBound : Q := inject_Z (2 ^ 1024 - 2 ^ 970).

Definition roundToDouble (neg : bool) (magnitude : Q) : Number :=
  if Qle_bool overflowBound magnitude then Infinity neg
  else Finite (Qred (if neg then - magnitude else magnitude)).

(** [Number.parseFloat]: the longest prefix that is a decimal literal. *)
Definition parseFloat (s : string) : Number :=
  let '(neg, body) := readSign (trimStart s) in
  if String.prefix "Infinity" body then Infinity neg
  else
    let '(ip, rest) := spanDigits body in
    let '(fp, rest') :=
      match rest with
      | String "." r => spanDigits r
      | _ => (EmptyString, rest)
      end in
    match ip, fp with
    | EmptyString, EmptyString => NaN
    | _, _ =>
        let mantissa :=
          (inject_Z (digitsValue 0 (ip ++ fp))
           / inject_Z (10 ^ Z.of_nat (String.length fp)))%Q in
        roundToDouble neg (mantissa * Qpower (inject_Z 10) (readExponent rest'))%Q
    end.

Definition isFinite (n : Number) : bool :=
  match n with Finite _ => true | _ => false end.

(** [Math.max], [Math.min] and [Math.round] on finite numbers. *)
Definition Math_max (a b : Q) : Q := Qmax a b.
Definition Math_min (a b : Q) : Q := Qmin a b.
Definition Math_round (a : Q) : Z := Qfloor (a + (1 # 2))%Q.

(** Truthiness of a finite number. *)
Definition truthyNum (a : Q) : bool := negb (Qeq_bool a 0).

End JS.

(** Built-ins of the host that the model leaves abstract:
    [Number::toString] (used by [String(value)] on numbers) and [Math.pow]. *)
Class Host := {
  Number_toString : Q -> string;
  Math_pow : Q -> Q -> Q;
}.

(** [Number.prototype.toFixed(2)] *)
Definition toFixed2 `{Host} (x : Q) : string :=
  if Qle_bool (inject_Z (10 ^ 21)) (Qabs x) then Number_toString x
  else
    let n := Qfloor (Qabs x * 100 + (1 # 2))%Q in
    (if Qle_bool 0 x then "" else "-")
      ++ JS.stringOfInt (n / 100) ++ "."
      ++ JS.padStart (JS.stringOfInt (n mod 100)) 2 "0".

(** Reading of the local wall clock ([new Date()] and its getters). *)
Record Date := {
  getDate : Z;
  getMonth : Z;
  getFullYear : Z;
  getHours : Z;
  getMinutes : Z;
  getSeconds : Z;
}.

(** A parsed CSV row: column name to cell text. *)
Abbreviation Row := (gmap string string).

(** The [Lote] object served by the API. *)
Record Lote := {
  id : string;
  mz : string;
  lote : Z;
  areaM2 : option Q;
  price : option Q;
  condicion : string;
  asesor : option string;
  cliente : option string;
  comentario : option string;
  ultimaModificacion : option string;
}.

(** Body of [PUT /api/lotes/:id]. *)
Record Payload := {
  p_price : JS.Value;
  p_asesor : option string;
  p_estado : option string;
  p_cliente : option string;
  p_comentario : option string;
}.

(** ** server.mjs: the CSV-backed API *)
Module Server.

Definition ALLOWED_STATUS : list string := ["LIBRE"; "SEPARADO"; "VENDIDO"].

Definition REQUIRED_COLUMNS : list string :=
  ["MZ"; "LOTE"; "AREA"; "PRECIO"; "CONDICION"; "ASESOR"; "CLIENTE";
   "COMENTARIO"; "ULTIMA_MODIFICACION"].

Definition falsy (v : JS.Value) : bool :=
  match v with
  | JS.VUndefined | JS.VNull => true
  | JS.VBool b => negb b
  | JS.VNum q => Qeq_bool q 0
  | JS.VStr s => if s is EmptyString then true else false
  end.

Definition toString `{Host} (v : JS.Value) : string :=
  match v with
  | JS.VUndefined => "undefined"
  | JS.VNull => "null"
  | JS.VBool b => if b then "true" else "false"
  | JS.VNum q => Number_toString q
  | JS.VStr s => s
  end.

(** The class [[\d.,-]]. *)
Definition numericChar (c : ascii) : bool :=
  JS.isDigit c || Ascii.eqb c "." || Ascii.eqb c "," || Ascii.eqb c "-".

(** [s.replace(/[^\d.,-]/g, "")] *)
Fixpoint stripNonNumeric (s : string) : string :=
  match s with
  | EmptyString => EmptyString
  | String c r => if numericChar c then String c (stripNonNumeric r) else stripNonNumeric r
  end.

(** [s.replace(",", by)]: only the first comma is replaced. *)
Fixpoint replaceFirstComma (by_ : string) (s : string) : string :=
  match s with
  | EmptyString => EmptyString
  | String c r => if Ascii.eqb c "," then by_ ++ r else String c (replaceFirstComma by_ r)
  end.

Definition finiteOrNull (n : JS.Number) : option Q :=
  match n with JS.Finite q => Some q | _ => None end.

Definition cleanNumber `{Host} (value : JS.Value) : option Q :=
  if falsy value then None
  else
    let normalized := replaceFirstComma "" (stripNonNumeric (toString value)) in
    let parsed := JS.parseFloat normalized in
    finiteOrNull parsed.

Definition normalizeStatus (value : option string) : string :=
  let v := match value with
           | None | Some EmptyString => "LIBRE"
           | Some s => s
           end in
  let normalized := JS.toUpperCase (JS.trim v) in
  if bool_decide (normalized ∈ ALLOWED_STATUS) then normalized else "LIBRE".

Definition toLoteId (mz : string) (lote : Z) : string :=
  mz ++ "-" ++ JS.padStart (JS.stringOfInt lote) 2 "0".

Definition formatReal `{Host} (value : option Q) : string :=
  match value with
  | None => ""
  | Some v => toFixed2 v
  end.

Definition normalizeText (value : option string) : string :=
  JS.trim (default "" value).

Definition months : list string :=
  ["ene"; "feb"; "mar"; "abr"; "may"; "jun"; "jul"; "ago"; "sep"; "oct"; "nov"; "dic"].

Definition toCurrentTimestamp (now : Date) : string :=
  let dd := JS.padStart (JS.stringOfInt (getDate now)) 2 "0" in
  let mmm := if (getMonth now <? 0)%Z then "undefined"
             else default "undefined" (months !! Z.to_nat (getMonth now)) in
  let aa := JS.sliceLast 2 (JS.stringOfInt (getFullYear now)) in
  let hh := JS.padStart (JS.stringOfInt (getHours now)) 2 "0" in
  let mi := JS.padStart (JS.stringOfInt (getMinutes now)) 2 "0" in
  let ss := JS.padStart (JS.stringOfInt (getSeconds now)) 2 "0" in
  dd ++ "-" ++ mmm ++ "-" ++ aa ++ " " ++ hh ++ ":" ++ mi ++ ":" ++ ss.

(** [x || undefined] on a string. *)
Definition orUndefined (s : string) : option string :=
  if s is EmptyString then None else Some s.

Definition cell (row : Row) (column : string) : JS.Value :=
  match row !! column with Some s => JS.VStr s | None => JS.VUndefined end.

Definition mapRowToLote `{Host} (row : Row) : option Lote :=
  let mz := JS.toUpperCase (normalizeText (row !! "MZ")) in
  match mz, JS.parseInt (normalizeText (row !! "LOTE")) with
  | EmptyString, _ | _, None => None
  | _, Some lote =>
      let areaM2 := cleanNumber (cell row "AREA") in
      let price := cleanNumber (cell row "PRECIO") in
      Some {| id := toLoteId mz lote;
              mz := mz;
              lote := lote;
              areaM2 := areaM2;
              price := price;
              condicion := normalizeStatus (row !! "CONDICION");
              asesor := orUndefined (normalizeText (row !! "ASESOR"));
              cliente := orUndefined (normalizeText (row !! "CLIENTE"));
              comentario := orUndefined (normalizeText (row !! "COMENTARIO"));
              ultimaModificacion :=
                orUndefined (normalizeText (row !! "ULTIMA_MODIFICACION")) |}
  end.

Definition ensureColumns (fields : list string) : list string :=
  fold_left (fun next column =>
               if bool_decide (column ∈ next) then next else (next ++ [column])%list)
            REQUIRED_COLUMNS fields.

(** What [parseCsv] yields for the file: data rows and header fields. *)
Record CsvState := { rows : list Row; fields : list string }.

(** The file system as the server sees it: the parsed content of
    [lotes.csv] ([None] when it cannot be read) and the number of
    [fs.writeFile] calls made so far. *)
Record World := { file : option CsvState; writes : nat }.

Definition readCsvState (w : World) : option CsvState :=
  st ← file w;
  Some {| rows := rows st; fields := ensureColumns (fields st) |}.

(** One line of [Papa.unparse] read back by [Papa.parse]: every listed
    column is present, a missing cell reads back as the empty string. *)
Definition unparseRow (columns : list string) (row : Row) : Row :=
  foldr (fun column acc => <[column := default "" (row !! column)]> acc) ∅ columns.

Definition writeCsvState (st : CsvState) (w : World) : World :=
  let columns := ensureColumns (fields st) in
  {| file := Some {| rows := unparseRow columns <$> rows st; fields := columns |};
     writes := S (writes w) |}.

Inductive Response :=
  | Items (items : list Lote)
  | Item (item : option Lote)
  | Status404
  | Status500.

(** [GET /api/lotes] *)
Definition getLotes `{Host} (w : World) : Response :=
  match readCsvState w with
  | Some st => Items (omap mapRowToLote (rows st))
  | None => Status500
  end.

(** The predicate handed to [rows.findIndex]. *)
Definition matchesId (loteId : string) (row : Row) : bool :=
  let mz := JS.toUpperCase (normalizeText (row !! "MZ")) in
  match mz, JS.parseInt (normalizeText (row !! "LOTE")) with
  | EmptyString, _ | _, None => false
  | _, Some lote => bool_decide (toLoteId mz lote = loteId)
  end.

(** [Array.prototype.findIndex]; [None] stands for -1. *)
Fixpoint findIndex {A} (f : A -> bool) (l : list A) : option nat :=
  match l with
  | [] => None
  | x :: r => if f x then Some O else S <$> findIndex f r
  end.

(** [a ?? b] *)
Definition coalesce {A} (a b : option A) : option A :=
  match a with Some _ => a | None => b end.

(** The in-place edits made to the matched row. *)
Definition patchRow `{Host} (now : Date) (payload : Payload) (row : Row) : Row :=
  let row := <["CONDICION" := normalizeStatus (coalesce (p_estado payload) (row !! "CONDICION"))]> row in
  let row := <["ASESOR" := normalizeText (coalesce (p_asesor payload) (row !! "ASESOR"))]> row in
  let row := <["CLIENTE" := normalizeText (coalesce (p_cliente payload) (row !! "CLIENTE"))]> row in
  let row := <["COMENTARIO" := normalizeText (coalesce (p_comentario payload) (row !! "COMENTARIO"))]> row in
  let row := <["ULTIMA_MODIFICACION" := toCurrentTimestamp now]> row in
  match p_price payload with
  | JS.VUndefined => row
  | v =>
      let price := cleanNumber v in
      <["PRECIO" := match price with None => "" | Some _ => formatReal price end]> row
  end.

(** [PUT /api/lotes/:id] *)
Definition putLote `{Host} (now : Date) (id_ : string) (payload : Payload) (w : World)
  : Response * World :=
  let loteId := JS.toUpperCase (normalizeText (Some id_)) in
  match readCsvState w with
  | None => (Status500, w)
  | Some st =>
      match findIndex (matchesId loteId) (rows st) with
      | None => (Status404, w)
      | Some index =>
          match rows st !! index with
          | None => (Status500, w)
          | Some row0 =>
              let row := patchRow now payload row0 in
              let rows' := <[index := row]> (rows st) in
              let w' := writeCsvState {| rows := rows'; fields := fields st |} w in
              (Item (mapRowToLote row), w')
          end
      end
  end.

End Server.

(** ** scripts/seed-supabase-from-csv.mjs: the bulk-load script *)
Module Seed.

Definition cleanNumber `{Host} (value : JS.Value) : option Q :=
  match value with
  | JS.VUndefined | JS.VNull | JS.VStr EmptyString => None
  | _ =>
      let normalized :=
        Server.replaceFirstComma "." (Server.stripNonNumeric (Server.toString value)) in
      let parsed := JS.parseFloat normalized in
      Server.finiteOrNull parsed
  end.

Definition normalizeStatus (value : option string) : string :=
  let v := match value with
           | None | Some EmptyString => "LIBRE"
           | Some s => s
           end in
  let normalized := JS.toUpperCase (JS.trim v) in
  if bool_decide (normalized = "SEPARADO") || bool_decide (normalized = "VENDIDO")
  then normalized else "LIBRE".

Definition normalizeText (value : option string) : string :=
  JS.trim (default "" value).

End Seed.

(** ** lib/lotesService.mjs: helpers of the database-backed adapter *)
Module LotesService.

Definition cleanNumber `{Host} (value : JS.Value) : option Q :=
  match value with
  | JS.VNull | JS.VUndefined | JS.VStr EmptyString => None
  | _ =>
      let normalized :=
        Server.replaceFirstComma "." (Server.stripNonNumeric (Server.toString value)) in
      let parsed := JS.parseFloat normalized in
      Server.finiteOrNull parsed
  end.

Definition normalizeStatus (value : option string) : string :=
  let v := match value with
           | None | Some EmptyString => "LIBRE"
           | Some s => s
           end in
  let normalized := JS.toUpperCase (JS.trim v) in
  if bool_decide (normalized ∈ Server.ALLOWED_STATUS) then normalized else "LIBRE".

Definition toLoteId (mz : string) (lote : Z) : string :=
  JS.toUpperCase (JS.trim mz) ++ "-" ++ JS.padStart (JS.stringOfInt lote) 2 "0".

End LotesService.

(** ** src/App.tsx: client-side helpers, quote and proforma engine *)
Module App.

Definition cleanNumber (value : option string) : option Q :=
  match value with
  | None | Some EmptyString => None
  | Some v =>
      let normalized := Server.replaceFirstComma "" (Server.stripNonNumeric v) in
      let parsed := JS.parseFloat normalized in
      Server.finiteOrNull parsed
  end.

Definition toLoteId (mz : string) (lote : Z) : string :=
  mz ++ "-" ++ JS.padStart (JS.stringOfInt lote) 2 "0".

Definition clamp (value min max : Q) : Q :=
  JS.Math_min (JS.Math_max value min) max.


(** [x || 0] on a number. *)
Definition orZero (x : Q) : Q := if JS.truthyNum x then x else 0%Q.

(** [x || 1] on a number. *)
Definition orOne (x : Q) : Q := if JS.truthyNum x then x else 1%Q.

Record QuoteState := {
  precio : Q;
  inicialMonto : Q;
  cuotas : Q;
  interesAnual : Q;
}.

Definition defaultQuote : QuoteState :=
  {| precio := 0; inicialMonto := 6000; cuotas := 24; interesAnual := 0 |}.

Record Cliente := {
  nombre : string; dni : string; celular : string; direccion : string; correo : string;
}.

Record LoteInfo := {
  proyecto : string; li_mz : string; li_lote : string; area : string; ubicacion : string;
}.

Record Vendedor := { v_nombre : string; v_celular : string }.

Record ProformaState := {
  pf_cliente : Cliente;
  pf_lote : LoteInfo;
  precioRegular : Q;
  precioPromocional : Q;
  descuentoSoles : Q;
  descuentoPct : Q;
  diasVigencia : Q;
  fechaCaducidad : string;
  separacion : Q;
  inicial : Q;
  meses : Q;
  pf_vendedor : Vendedor;
  creadoEn : string;
}.

(** The discount field touched last ([lastPriceEditedRef.current]). *)
Inductive PriceField := soles | pct | promo.

(** [recalcProforma]; [edited] is the content of [lastPriceEditedRef] and
    [fechaEn n] is [toDateValue(addDays(new Date(), n))]. *)
Definition recalcProforma (edited : option PriceField) (fechaEn : Q -> string)
    (draft : ProformaState) : ProformaState :=
  let regular := JS.Math_max (precioRegular draft) 0 in
  let promo0 := JS.Math_max (precioPromocional draft) 0 in
  let descuentoSoles0 := JS.Math_max (descuentoSoles draft) 0 in
  let descuentoPct0 := JS.Math_max (descuentoPct draft) 0 in
  let '(promo1, descuentoSoles1, descuentoPct1) :=
    match edited with
    | Some soles =>
        let ds := clamp descuentoSoles0 0 regular in
        let dp := if JS.truthyNum regular then (ds / regular * 100)%Q else 0%Q in
        (JS.Math_max (regular - ds)%Q 0, ds, dp)
    | Some pct =>
        let dp := clamp descuentoPct0 0 100 in
        let ds := (dp / 100 * regular)%Q in
        (JS.Math_max (regular - ds)%Q 0, ds, dp)
    | Some promo | None =>
        let pr := clamp promo0 0 regular in
        let ds := JS.Math_max (regular - pr)%Q 0 in
        let dp := if JS.truthyNum regular then (ds / regular * 100)%Q else 0%Q in
        (pr, ds, dp)
    end in
  let dias := clamp (inject_Z (JS.Math_round (orZero (diasVigencia draft)))) 1 30 in
  let fecha := fechaEn dias in
  let separacion1 := JS.Math_max (separacion draft) 0 in
  let inicial1 := JS.Math_max (orZero (inicial draft)) 6000 in
  let meses1 := clamp (inject_Z (JS.Math_round (orOne (meses draft)))) 1 36 in
  {| pf_cliente := pf_cliente draft;
     pf_lote := pf_lote draft;
     precioRegular := regular;
     precioPromocional := promo1;
     descuentoSoles := descuentoSoles1;
     descuentoPct := descuentoPct1;
     diasVigencia := dias;
     fechaCaducidad := fecha;
     separacion := separacion1;
     inicial := inicial1;
     meses := meses1;
     pf_vendedor := pf_vendedor draft;
     creadoEn := creadoEn draft |}.

(** [updateProforma]: the state after [setProforma]. *)
Definition updateProforma (edited : option PriceField) (fechaEn : Q -> string)
    (updater : ProformaState -> ProformaState) (current : ProformaState) : ProformaState :=
  recalcProforma edited fechaEn (updater current).


Definition setDescuentoPct (x : Q) (s : ProformaState) : ProformaState :=
  {| pf_cliente := pf_cliente s; pf_lote := pf_lote s;
     precioRegular := precioRegular s; precioPromocional := precioPromocional s;
     descuentoSoles := descuentoSoles s; descuentoPct := x;
     diasVigencia := diasVigencia s; fechaCaducidad := fechaCaducidad s;
     separacion := separacion s; inicial := inicial s; meses := meses s;
     pf_vendedor := pf_vendedor s; creadoEn := creadoEn s |}.


(** [onChange] of the proforma "Descuento (%)" input. *)
Definition onChangeDescuentoPct (fechaEn : Q -> string) (d : Q)
    (current : ProformaState) : ProformaState :=
  updateProforma (Some pct) fechaEn (setDescuentoPct d) current.





Definition cuotaRapida (quote : QuoteState) (meses inicial : Q) : Q :=
  JS.Math_max ((precio quote - inicial) / meses)%Q 0.



(** [statusToClass] *)
Definition statusToClass (value : option string) : string :=
  let v := JS.toUpperCase (default "" value) in
  if String.eqb v "SEPARADO" then "separado"
  else if String.eqb v "VENDIDO" then "vendido"
  else "libre".

(** [normalizeStatusLabel] *)
Definition normalizeStatusLabel (value : option string) : string :=
  let v := JS.toUpperCase (default "" value) in
  if String.eqb v "VENDIDO" then "VENDIDO"
  else if String.eqb v "SEPARADO" then "SEPARADO"
  else "DISPONIBLE".

Definition formatArea `{Host} (value : option Q) : string :=
  match value with
  | None => "-"
  | Some v => toFixed2 v ++ " m2"
  end.




(** [refreshProformaFromLote]: the proforma opened on a lot.  It also
    clears [lastPriceEditedRef].  [vendedor] is the seller kept from the
    previous proforma, [locationText] the project's location line and
    [creadoEn] the clock in ISO form. *)
Definition refreshProformaFromLote `{Host} (fechaEn : Q -> string)
    (locationText creadoEn_ : string) (vendedor : Vendedor) (l : Lote) : ProformaState :=
  let regular := default 0%Q (price l) in
  let promo_ := regular in
  let inicial_ := clamp 6000 6000 (if JS.truthyNum promo_ then promo_ else 6000%Q) in
  let dias := 3%Q in
  {| pf_cliente := {| nombre := ""; dni := ""; celular := ""; direccion := "";
                      correo := "" |};
     pf_lote := {| proyecto := "Arenas Malabrigo"; li_mz := mz l;
                   li_lote := JS.stringOfInt (lote l); area := formatArea (areaM2 l);
                   ubicacion := locationText |};
     precioRegular := regular;
     precioPromocional := promo_;
     descuentoSoles := JS.Math_max (regular - promo_)%Q 0;
     descuentoPct := if JS.truthyNum regular
                     then JS.Math_max ((regular - promo_) / regular * 100)%Q 0
                     else 0%Q;
     diasVigencia := dias;
     fechaCaducidad := fechaEn dias;
     separacion := 0;
     inicial := inicial_;
     meses := 24;
     pf_vendedor := vendedor;
     creadoEn := creadoEn_ |}.

(** The row mapper of [loadLotesFromCsvFallback] (the [flatMap] callback). *)
Definition fallbackRow (row : Row) : list Lote :=
  let mz_ := JS.toUpperCase (JS.trim (default "" (row !! "MZ"))) in
  match mz_, JS.parseInt (JS.trim (default "" (row !! "LOTE"))) with
  | EmptyString, _ | _, None => []
  | _, Some lote_ =>
      let areaM2_ := cleanNumber (row !! "AREA") in
      let price_ := cleanNumber (row !! "PRECIO") in
      let orLibre (o : option string) :=
        match o with None | Some EmptyString => "LIBRE" | Some s => s end in
      let condicion_ := JS.toUpperCase (JS.trim (orLibre (row !! "CONDICION"))) in
      let asesor_ := JS.trim (default "" (row !! "ASESOR")) in
      let cliente_ := JS.trim (default "" (row !! "CLIENTE")) in
      let comentario_ := JS.trim (default "" (row !! "COMENTARIO")) in
      let ultima := JS.trim (default "" (row !! "ULTIMA_MODIFICACION")) in
      [ {| id := toLoteId mz_ lote_;
           mz := mz_;
           lote := lote_;
           areaM2 := areaM2_;
           price := price_;
           condicion := orLibre (Some condicion_);
           asesor := Server.orUndefined asesor_;
           cliente := Server.orUndefined cliente_;
           comentario := Server.orUndefined comentario_;
           ultimaModificacion := Server.orUndefined ultima |} ]
  end.

Definition loadLotesFromCsvFallback (rows : list Row) : list Lote :=
  flat_map fallbackRow rows.

End App.

(** ** lib/lotesService.mjs: the database-backed adapter *)
Module Db.

(** A row of the [lotes] table as the client library returns it
    ([null] columns are [None]).  Numeric columns are taken to hold the
    value as sent; the rounding of [numeric(n,2)] is not modelled. *)
Record DbRow := {
  db_id : string;
  db_mz : string;
  db_lote : Z;
  db_area : option Q;
  db_precio : option Q;
  db_condicion : option string;
  db_asesor : option string;
  db_cliente : option string;
  db_comentario : option string;
  db_ultima_modificacion : option string;
}.

(** The table, keyed by its primary key [id]. *)
Abbreviation Table := (gmap string DbRow).

(** [x || undefined] on a nullable text column. *)
Definition orUndefined (o : option string) : option string :=
  match o with
  | Some (String _ _ as s) => Some s
  | _ => None
  end.

Definition mapDbRowToLote (row : DbRow) : Lote :=
  {| id := db_id row;
     mz := db_mz row;
     lote := db_lote row;
     areaM2 := db_area row;
     price := db_precio row;
     condicion := LotesService.normalizeStatus (db_condicion row);
     asesor := orUndefined (db_asesor row);
     cliente := orUndefined (db_cliente row);
     comentario := orUndefined (db_comentario row);
     ultimaModificacion := orUndefined (db_ultima_modificacion row) |}.

(** [listLotes] on the rows the ordered query returned. *)
Definition listLotes (data : list DbRow) : list Lote := mapDbRowToLote <$> data.

(** The column patch of [updateLoteById]; [pa_precio] is [None] when
    the key is left out. *)
Record Patch := {
  pa_condicion : string;
  pa_asesor : string;
  pa_cliente : string;
  pa_comentario : string;
  pa_ultima_modificacion : string;
  pa_precio : option (option Q);
}.

Definition normalizeText (value : option string) : string :=
  JS.trim (default "" value).

Definition buildPatch `{Host} (now : Date) (payload : Payload) : Patch :=
  {| pa_condicion := LotesService.normalizeStatus (p_estado payload);
     pa_asesor := normalizeText (p_asesor payload);
     pa_cliente := normalizeText (p_cliente payload);
     pa_comentario := normalizeText (p_comentario payload);
     pa_ultima_modificacion := Server.toCurrentTimestamp now;
     pa_precio := match p_price payload with
                  | JS.VUndefined => None
                  | v => Some (LotesService.cleanNumber v)
                  end |}.

(** [UPDATE lotes SET ...] on one row: patched columns are replaced. *)
Definition applyPatch (patch : Patch) (row : DbRow) : DbRow :=
  {| db_id := db_id row;
     db_mz := db_mz row;
     db_lote := db_lote row;
     db_area := db_area row;
     db_precio := match pa_precio patch with Some v => v | None => db_precio row end;
     db_condicion := Some (pa_condicion patch);
     db_asesor := Some (pa_asesor patch);
     db_cliente := Some (pa_cliente patch);
     db_comentario := Some (pa_comentario patch);
     db_ultima_modificacion := Some (pa_ultima_modificacion patch) |}.

(** [updateLoteById]: [update(patch).eq("id", key).select().maybeSingle()]. *)
Definition updateLoteById `{Host} (now : Date) (table : Table) (loteId : string)
    (payload : Payload) : option Lote * Table :=
  let patch := buildPatch now payload in
  let key := JS.toUpperCase (JS.trim loteId) in
  match table !! key with
  | None => (None, table)
  | Some row =>
      let data := applyPatch patch row in
      (Some (mapDbRowToLote data), <[key := data]> table)
  end.

End Db.

(** ** api/lotes/[id].js: the serverless PUT route *)
Module Api.

Inductive Response :=
  | Ok (item : Lote)
  | NotFound
  | MethodNotAllowed (allow : string)
  | ServerError.

(** [handler]; [configured] tells whether the database credentials are
    in the environment ([getSupabaseAdminClient] throws otherwise). *)
Definition handler `{Host} (now : Date) (configured : bool) (method : string)
    (id_ : string) (body : Payload) (table : Db.Table) : Response * Db.Table :=
  if negb (String.eqb method "PUT") then (MethodNotAllowed "PUT", table)
  else if negb configured then (ServerError, table)
  else
    match Db.updateLoteById now table id_ body with
    | (None, table') => (NotFound, table')
    | (Some item, table') => (Ok item, table')
    end.

End Api.

(** ** scripts/seed-supabase-from-csv.mjs: mapping and batching *)
Module SeedScript.

Definition BATCH_SIZE : nat := 200.

(** The [rows.map] callback; [None] rows are filtered out. *)
Definition seedRow `{Host} (row : Row) : option Db.DbRow :=
  let mz_ := JS.toUpperCase (Seed.normalizeText (row !! "MZ")) in
  match mz_, JS.parseInt (Seed.normalizeText (row !! "LOTE")) with
  | EmptyString, _ | _, None => None
  | _, Some lote_ =>
      Some {| Db.db_id := LotesService.toLoteId mz_ lote_;
              Db.db_mz := mz_;
              Db.db_lote := lote_;
              Db.db_area := Seed.cleanNumber (Server.cell row "AREA");
              Db.db_precio := Seed.cleanNumber (Server.cell row "PRECIO");
              Db.db_condicion := Some (Seed.normalizeStatus (row !! "CONDICION"));
              Db.db_asesor := Some (Seed.normalizeText (row !! "ASESOR"));
              Db.db_cliente := Some (Seed.normalizeText (row !! "CLIENTE"));
              Db.db_comentario := Some (Seed.normalizeText (row !! "COMENTARIO"));
              Db.db_ultima_modificacion :=
                Some (Seed.normalizeText (row !! "ULTIMA_MODIFICACION")) |}
  end.

Definition mapped `{Host} (rows : list Row) : list Db.DbRow := omap seedRow rows.

(** The chunks [mapped.slice(i, i + size)] for [i = 0, size, 2 size, ...]
    below the length; [fuel] bounds the number of turns of the loop. *)
Fixpoint batchesFrom {A} (fuel size : nat) (l : list A) : list (list A) :=
  match fuel with
  | O => []
  | S fuel' =>
      match l with
      | [] => []
      | _ => take size l :: batchesFrom fuel' size (drop size l)
      end
  end.

Definition batches {A} (l : list A) : list (list A) :=
  batchesFrom (length l) BATCH_SIZE l.

End SeedScript.

(** ** templates/VendedorPanel.tsx: the seller's table *)
Module Panel.

Record EditableFields := {
  e_price : string;
  e_asesor : string;
  e_estado : string;
  e_cliente : string;
  e_comentario : string;
}.

Definition normalizeStatus (value : option string) : string :=
  let v := match value with
           | None | Some EmptyString => "LIBRE"
           | Some s => s
           end in
  let normalized := JS.toUpperCase v in
  if bool_decide (normalized = "SEPARADO") || bool_decide (normalized = "VENDIDO")
  then normalized else "LIBRE".

Definition toPriceInput `{Host} (value : option Q) : string :=
  match value with
  | None => ""
  | Some v => Number_toString v
  end.


(** The draft [writeDraft] starts from when a row has none. *)
Definition baseDraft `{Host} (row : Lote) : EditableFields :=
  {| e_price := toPriceInput (price row);
     e_asesor := default "" (asesor row);
     e_estado := normalizeStatus (Some (condicion row));
     e_cliente := default "" (cliente row);
     e_comentario := default "" (comentario row) |}.


End Panel.

(** ** src/App.tsx, browser-local mode: overrides and their history *)
Module Legacy.

(** A [LoteOverride] as JSON holds it: a member is absent ([None]) or
    present; a present price may be [null]. *)
Record LoteOverride := {
  o_price : option (option Q);
  o_condicion : option string;
  o_cliente : option string;
}.

Abbreviation Overrides := (gmap string LoteOverride).

(** [{ ...item, ...override }] *)
Definition applyOverride (item : Lote) (override : option LoteOverride) : Lote :=
  match override with
  | None => item
  | Some o =>
      {| id := id item;
         mz := mz item;
         lote := lote item;
         areaM2 := areaM2 item;
         price := match o_price o with Some v => v | None => price item end;
         condicion := default (condicion item) (o_condicion o);
         asesor := asesor item;
         cliente := match o_cliente o with Some c => Some c | None => cliente item end;
         comentario := comentario item;
         ultimaModificacion := ultimaModificacion item |}
  end.

Definition applyOverrides (items : list Lote) (overrides : Overrides) : list Lote :=
  (fun item => applyOverride item (overrides !! id item)) <$> items.

(** [{ ...current[id], ...patch }] *)
Definition mergeOverride (previous : option LoteOverride) (patch : LoteOverride)
  : LoteOverride :=
  match previous with
  | None => patch
  | Some prev =>
      {| o_price := match o_price patch with Some v => Some v | None => o_price prev end;
         o_condicion := match o_condicion patch with
                        | Some v => Some v
                        | None => o_condicion prev
                        end;
         o_cliente := match o_cliente patch with
                      | Some v => Some v
                      | None => o_cliente prev
                      end |}
  end.

(** The next override map of [updateOverride]. *)
Definition updateOverride (id_ : string) (patch : LoteOverride) (current : Overrides)
  : Overrides :=
  <[id_ := mergeOverride (current !! id_) patch]> current.

(** [appendHistory]: what is stored under the history key afterwards;
    [stored] is what was there ([None] when the key is not set) and
    [now] the clock in ISO form. *)
Definition appendHistory (now entry : string) (stored : option (list string))
  : list string :=
  let line := now ++ " | " ++ entry in
  let history := default [] stored in
  take 200 (line :: history).

End Legacy.

(** A host for running the model on examples: numbers print as the
    decimal integer below them and [Math.pow] takes the integer part of
    the exponent.  The theorems hold for every host. *)
Definition exampleHost : Host :=
  {| Number_toString q := JS.stringOfInt (Qfloor q);
     Math_pow b e := Qpower b (Qfloor e) |}.

(** ** The update contract in the words of the specification *)
Module Spec.

(** A price as it is stored (two decimals) and read back. *)
Definition storedPrice `{Host} (v : JS.Value) : option Q :=
  match Server.cleanNumber v with
  | None => None
  | Some q => Server.cleanNumber (JS.VStr (toFixed2 q))
  end.

(** A free-text member: trimmed, absent when nothing is left. *)
Definition patchedText (patch : option string) (previous : option string) : option string :=
  match patch with
  | Some s => Server.orUndefined (JS.trim s)
  | None => previous
  end.

(** The lot [old] after [updateById] with [payload] at clock [now]:
    patched members replace the old ones, omitted ones stay, the
    identifying members and the area never change. *)
Definition updatedLote `{Host} (now : Date) (payload : Payload) (old : Lote) : Lote :=
  {| id := id old;
     mz := mz old;
     lote := lote old;
     areaM2 := areaM2 old;
     price := match p_price payload with
              | JS.VUndefined => price old
              | v => storedPrice v
              end;
     condicion := match p_estado payload with
                  | Some e => Server.normalizeStatus (Some e)
                  | None => condicion old
                  end;
     asesor := patchedText (p_asesor payload) (asesor old);
     cliente := patchedText (p_cliente payload) (cliente old);
     comentario := patchedText (p_comentario payload) (comentario old);
     ultimaModificacion := Some (Server.toCurrentTimestamp now) |}.

(** A row that [list()] keeps: a block name and a lot number. *)
Definition wellFormed (row : Row) : bool :=
  negb (String.eqb (JS.trim (default "" (row !! "MZ"))) "")
  && bool_decide (is_Some (JS.parseInt (JS.trim (default "" (row !! "LOTE"))))).

End Spec.

(** ** Vocabulary of the statements *)

(** Every character of [s] satisfies [p]. *)
Fixpoint allChars (p : ascii -> bool) (s : string) : bool :=
  match s with
  | EmptyString => true
  | String c r => p c && allChars p r
  end.

(** A string that does not start with white space (or is empty). *)
Definition cleanHead (s : string) : Prop :=
  match s with
  | EmptyString => True
  | String c _ => JS.isWhiteSpace c = false
  end.

(** Character classes used to state the string facts. *)
Definition notWhiteSpace (c : ascii) : bool := negb (JS.isWhiteSpace c).

Definition notComma (c : ascii) : bool := negb (Ascii.eqb c ",").

(** The id a request names, as the server compares it. *)
Definition requestedId (id_ : string) : string := JS.toUpperCase (JS.trim id_).

(** The four relations the proforma keeps between its price fields. *)
Definition reconciled (r : App.ProformaState) : Prop :=
  ((0 <= App.descuentoSoles r)%Q /\ (App.descuentoSoles r <= App.precioRegular r)%Q)
  /\ ((0 <= App.descuentoPct r)%Q /\ (App.descuentoPct r <= 100)%Q)
  /\ (App.precioPromocional r == App.precioRegular r - App.descuentoSoles r)%Q
  /\ ((0 <= App.precioPromocional r)%Q
      /\ (App.precioPromocional r <= App.precioRegular r)%Q).

(** Two proformas with the same numbers. *)
Definition sameNumbers (a b : App.ProformaState) : Prop :=
  (App.precioRegular a == App.precioRegular b)%Q
  /\ (App.precioPromocional a == App.precioPromocional b)%Q
  /\ (App.descuentoSoles a == App.descuentoSoles b)%Q
  /\ (App.descuentoPct a == App.descuentoPct b)%Q
  /\ (App.diasVigencia a == App.diasVigencia b)%Q
  /\ (App.separacion a == App.separacion b)%Q
  /\ (App.inicial a == App.inicial b)%Q
  /\ (App.meses a == App.meses b)%Q.

(** The link between discount and percentage that each editing mode
    leaves behind. *)
Definition priceLink (edited : option App.PriceField) (s : App.ProformaState) : Prop :=
  match edited with
  | Some App.pct =>
      (App.descuentoSoles s == App.descuentoPct s / 100 * App.precioRegular s)%Q
  | _ =>
      (App.descuentoPct s
       == (if JS.truthyNum (App.precioRegular s)
           then App.descuentoSoles s / App.precioRegular s * 100 else 0))%Q
  end.

(** The month name as [toCurrentTimestamp] picks it. *)
Definition monthName (m : Z) : string :=
  if (m <? 0)%Z then "undefined"
  else default "undefined" (Server.months !! Z.to_nat m).

(** A clock reading within the calendar's ranges. *)
Definition calendarDate (d : Date) : Prop :=
  (1 <= getDate d <= 31)%Z /\ (0 <= getMonth d < 12)%Z /\ (10 <= getFullYear d)%Z
  /\ (0 <= getHours d < 24)%Z /\ (0 <= getMinutes d < 60)%Z
  /\ (0 <= getSeconds d < 60)%Z.

(** ** Sample data: the end-to-end scenario of the specification *)

(** 1 November 2026, 09:05:00 local time ([getMonth] counts from 0). *)
Definition exampleNow : Date :=
  {| getDate := 1; getMonth := 10; getFullYear := 2026;
     getHours := 9; getMinutes := 5; getSeconds := 0 |}.

Definition exampleRow : Row :=
  {[ "MZ" := "A"; "LOTE" := "7"; "AREA" := "120.50"; "PRECIO" := "45000";
     "CONDICION" := "libre" ]}.

(** A row with an empty LOTE cell. *)
Definition malformedRow : Row :=
  {[ "MZ" := "B"; "LOTE" := ""; "AREA" := "90"; "PRECIO" := "30000";
     "CONDICION" := "LIBRE" ]}.

Definition exampleState : Server.CsvState :=
  {| Server.rows := [malformedRow; exampleRow];
     Server.fields := ["MZ"; "LOTE"; "AREA"; "PRECIO"; "CONDICION"] |}.

Definition exampleWorld : Server.World :=
  {| Server.file := Some exampleState; Server.writes := 0 |}.

Definition exampleLote : Lote :=
  {| id := "A-07"; mz := "A"; lote := 7; areaM2 := Some (241 # 2)%Q;
     price := Some 45000%Q; condicion := "LIBRE"; asesor := None; cliente := None;
     comentario := None; ultimaModificacion := None |}.

Definition examplePatch : Payload :=
  {| p_price := JS.VUndefined; p_asesor := None; p_estado := Some "SEPARADO";
     p_cliente := Some "Juan Perez"; p_comentario := None |}.

Definition zeroPricePatch : Payload :=
  {| p_price := JS.VNum 0; p_asesor := None; p_estado := None;
     p_cliente := None; p_comentario := None |}.

Definition exampleDraft : App.ProformaState :=
  {| App.pf_cliente := {| App.nombre := ""; App.dni := ""; App.celular := "";
                          App.direccion := ""; App.correo := "" |};
     App.pf_lote := {| App.proyecto := "Arenas Malabrigo"; App.li_mz := "A";
                       App.li_lote := "7"; App.area := "120.50 m2";
                       App.ubicacion := "" |};
     App.precioRegular := 45000; App.precioPromocional := 45000;
     App.descuentoSoles := 0; App.descuentoPct := 0; App.diasVigencia := 3;
     App.fechaCaducidad := "2026-11-04"; App.separacion := 0; App.inicial := 6000;
     App.meses := 24;
     App.pf_vendedor := {| App.v_nombre := ""; App.v_celular := "" |};
     App.creadoEn := "2026-11-01T09:05:00.000Z" |}.

Definition exampleDbRow : Db.DbRow :=
  {| Db.db_id := "A-07"; Db.db_mz := "A"; Db.db_lote := 7;
     Db.db_area := Some (241 # 2)%Q; Db.db_precio := Some 45000%Q;
     Db.db_condicion := Some "VENDIDO"; Db.db_asesor := Some "Ana";
     Db.db_cliente := None; Db.db_comentario := None;
     Db.db_ultima_modificacion := None |}.

Definition exampleTable : Db.Table := {[ "A-07" := exampleDbRow ]}.

(** A stand-in for [toDateValue(addDays(new Date(), n))]. *)
Definition exampleFechaEn (n : Q) : string := "2026-11-04".

(** * Properties *)

(** ** Facts about the string primitives *)
Lemma trimStart_cleanHead s : cleanHead (JS.trimStart s).
Proof.
  induction s as [|c r IH]; simpl; [exact I|].
  destruct (JS.isWhiteSpace c) eqn:E; [exact IH | exact E].
Qed.

Lemma trimStart_fixed s : cleanHead s -> JS.trimStart s = s.
Proof. destruct s as [|c r]; simpl; [reflexivity|]. intros ->. reflexivity. Qed.

Lemma trimEnd_idem s : JS.trimEnd (JS.trimEnd s) = JS.trimEnd s.
Proof.
  induction s as [|c r IH]; simpl; [reflexivity|].
  destruct (JS.trimEnd r) as [|d t] eqn:E.
  - destruct (JS.isWhiteSpace c) eqn:W; simpl; [reflexivity|]. rewrite W. reflexivity.
  - simpl in IH |- *. destruct (JS.trimEnd t) as [|d' t'] eqn:E'.
    + destruct (JS.isWhiteSpace d); [discriminate|]. rewrite IH. reflexivity.
    + rewrite IH. reflexivity.
Qed.

Lemma trimEnd_cleanHead s : cleanHead s -> cleanHead (JS.trimEnd s).
Proof.
  destruct s as [|c r]; simpl; [tauto|]. intros W.
  destruct (JS.trimEnd r); [rewrite W|]; simpl; exact W.
Qed.

Lemma trim_idem s : JS.trim (JS.trim s) = JS.trim s.
Proof.
  unfold JS.trim.
  rewrite (trimStart_fixed (JS.trimEnd (JS.trimStart s))).
  - apply trimEnd_idem.
  - apply trimEnd_cleanHead, trimStart_cleanHead.
Qed.

Lemma upperChar_idem c : JS.upperChar (JS.upperChar c) = JS.upperChar c.
Proof. destruct c as [[] [] [] [] [] [] [] []]; reflexivity. Qed.

Lemma isWhiteSpace_upperChar c : JS.isWhiteSpace (JS.upperChar c) = JS.isWhiteSpace c.
Proof. destruct c as [[] [] [] [] [] [] [] []]; reflexivity. Qed.

Lemma toUpperCase_idem s : JS.toUpperCase (JS.toUpperCase s) = JS.toUpperCase s.
Proof. induction s as [|c r IH]; simpl; [|rewrite upperChar_idem, IH]; reflexivity. Qed.

Lemma toUpperCase_empty s : JS.toUpperCase s = "" <-> s = "".
Proof. destruct s; simpl; split; congruence. Qed.

Lemma trimStart_toUpperCase s :
  JS.trimStart (JS.toUpperCase s) = JS.toUpperCase (JS.trimStart s).
Proof.
  induction s as [|c r IH]; simpl; [reflexivity|].
  rewrite isWhiteSpace_upperChar. destruct (JS.isWhiteSpace c); [exact IH | reflexivity].
Qed.

Lemma trimEnd_toUpperCase s :
  JS.trimEnd (JS.toUpperCase s) = JS.toUpperCase (JS.trimEnd s).
Proof.
  induction s as [|c r IH]; simpl; [reflexivity|].
  rewrite IH, isWhiteSpace_upperChar.
  destruct (JS.trimEnd r); simpl; [destruct (JS.isWhiteSpace c)|]; reflexivity.
Qed.

Lemma trim_toUpperCase s : JS.trim (JS.toUpperCase s) = JS.toUpperCase (JS.trim s).
Proof. unfold JS.trim. rewrite trimStart_toUpperCase, trimEnd_toUpperCase. reflexivity. Qed.

Lemma app_empty_l (s : string) : "" ++ s = s.
Proof. reflexivity. Qed.

Lemma app_String c (r s : string) : String c r ++ s = String c (r ++ s).
Proof. reflexivity. Qed.


Lemma app_assoc_s (a b c : string) : (a ++ b) ++ c = a ++ b ++ c.
Proof.
  induction a as [|x r IH]; [reflexivity|]. rewrite !app_String, IH. reflexivity.
Qed.

Ltac push_app := rewrite ?app_String, ?app_empty_l.

Lemma toUpperCase_app a b :
  JS.toUpperCase (a ++ b) = JS.toUpperCase a ++ JS.toUpperCase b.
Proof.
  induction a as [|c r IH]; push_app; simpl; push_app; [|rewrite IH]; reflexivity.
Qed.

Lemma allChars_app p a b : allChars p (a ++ b) = allChars p a && allChars p b.
Proof.
  induction a as [|c r IH]; push_app; simpl; [|rewrite IH, andb_assoc]; reflexivity.
Qed.

(** Without trailing white space [trimEnd] has nothing to remove. *)
Lemma trimEnd_app_fixed a b :
  b <> "" -> allChars notWhiteSpace b = true -> JS.trimEnd (a ++ b) = a ++ b.
Proof.
  intros Hb Hall. induction a as [|c r IH]; push_app; simpl.
  - clear Hb. induction b as [|c r IH]; simpl in *; [reflexivity|].
    apply andb_prop in Hall as [Hc Hr]. rewrite (IH Hr).
    unfold notWhiteSpace in Hc. apply negb_true_iff in Hc. rewrite Hc.
    destruct r; reflexivity.
  - rewrite IH. destruct (r ++ b) eqn:E; [|reflexivity].
    destruct r; [rewrite app_empty_l in E; congruence | discriminate].
Qed.

Lemma fillTo_app_nonempty fill cur n c r :
  exists x y, JS.fillTo fill cur n ++ String c r = String x y.
Proof.
  destruct (JS.fillTo fill cur n) as [|x y]; push_app; eauto.
Qed.

Lemma uint_chars d : allChars JS.isDigit (NilEmpty.string_of_uint d) = true.
Proof. induction d; simpl; try rewrite IHd; reflexivity. Qed.

Lemma stringOfInt_chars n :
  allChars (fun c => JS.isDigit c || Ascii.eqb c "-") (JS.stringOfInt n) = true
  /\ JS.stringOfInt n <> "".
Proof.
  assert (Hw : forall p q s, (forall c, p c = true -> q c = true) ->
                 allChars p s = true -> allChars q s = true).
  { intros p q s Hpq. induction s as [|c r IH]; simpl; [reflexivity|].
    intros [Hc Hr]%andb_prop. rewrite (Hpq _ Hc), (IH Hr). reflexivity. }
  assert (Hu : forall d,
    allChars (fun c => JS.isDigit c || Ascii.eqb c "-") (NilZero.string_of_uint d) = true
    /\ NilZero.string_of_uint d <> "").
  { intros d. split.
    - destruct d; try reflexivity;
        (eapply Hw; [|apply uint_chars]; intros c ->; reflexivity).
    - destruct d; simpl; discriminate. }
  unfold JS.stringOfInt, NilZero.string_of_int.
  destruct (Z.to_int n) as [d|d].
  - apply Hu.
  - split; [|discriminate]. simpl. rewrite (proj1 (Hu d)). reflexivity.
Qed.




Lemma replaceFirstComma_hit by_ a b :
  allChars notComma a = true ->
  Server.replaceFirstComma by_ (a ++ String "," b) = a ++ by_ ++ b.
Proof.
  induction a as [|c r IH]; push_app; simpl; [reflexivity|].
  intros [Hc Hr]%andb_prop. unfold notComma in Hc. apply negb_true_iff in Hc.
  rewrite Hc, (IH Hr). reflexivity.
Qed.

Lemma replaceFirstComma_miss by_ a :
  allChars notComma a = true -> Server.replaceFirstComma by_ a = a.
Proof.
  induction a as [|c r IH]; simpl; [reflexivity|].
  intros [Hc Hr]%andb_prop. unfold notComma in Hc. apply negb_true_iff in Hc.
  rewrite Hc, (IH Hr). reflexivity.
Qed.





(** ** Identifier and normalisation helpers *)

Lemma normalizeStatus_cases (x : option string) :
  Server.normalizeStatus x = "LIBRE" \/ Server.normalizeStatus x = "SEPARADO"
  \/ Server.normalizeStatus x = "VENDIDO".
Proof.
  unfold Server.normalizeStatus. case_bool_decide as Hin; [|by left].
  unfold Server.ALLOWED_STATUS in Hin.
  rewrite !elem_of_cons, elem_of_nil in Hin. tauto.
Qed.

Lemma normalizeStatus_fixed (s : string) :
  s ∈ Server.ALLOWED_STATUS -> Server.normalizeStatus (Some s) = s.
Proof.
  unfold Server.ALLOWED_STATUS. rewrite !elem_of_cons, elem_of_nil.
  intros [->|[->|[->|[]]]]; reflexivity.
Qed.

Lemma normalizeStatus_idem (x : option string) :
  Server.normalizeStatus (Some (Server.normalizeStatus x)) = Server.normalizeStatus x.
Proof.
  destruct (normalizeStatus_cases x) as [E|[E|E]]; rewrite E; reflexivity.
Qed.

(** C8. Status closure: [normalizeStatus] always answers LIBRE, SEPARADO
    or VENDIDO.  The input is trimmed and uppercased and returned as is
    when that lands in the set; everything else, the empty string and
    null included, gives LIBRE.  The seed script's and the database
    adapter's variants agree with the server's. *)
Theorem normalizeStatus_closed (x : option string) :
  Server.normalizeStatus x ∈ Server.ALLOWED_STATUS
  /\ (let normalized := JS.toUpperCase (JS.trim (default "" x)) in
      (normalized ∈ Server.ALLOWED_STATUS -> Server.normalizeStatus x = normalized)
      /\ (normalized ∉ Server.ALLOWED_STATUS -> Server.normalizeStatus x = "LIBRE"))
  /\ Seed.normalizeStatus x = Server.normalizeStatus x
  /\ LotesService.normalizeStatus x = Server.normalizeStatus x
  /\ Server.normalizeStatus (Some "separado") = "SEPARADO"
  /\ Server.normalizeStatus (Some "") = "LIBRE"
  /\ Server.normalizeStatus (Some "x") = "LIBRE"
  /\ Server.normalizeStatus None = "LIBRE".
Proof.
  split; [|split; [|split; [|split]]].
  - unfold Server.ALLOWED_STATUS. rewrite !elem_of_cons.
    destruct (normalizeStatus_cases x) as [E|[E|E]]; rewrite E; tauto.
  - assert (Hempty : "" ∉ Server.ALLOWED_STATUS).
    { unfold Server.ALLOWED_STATUS. rewrite !elem_of_cons, elem_of_nil.
      intros [?|[?|[?|[]]]]; discriminate. }
    unfold Server.normalizeStatus.
    destruct x as [[|c r]|]; simpl default; cbv zeta.
    + split; [intros Hin; by destruct Hempty | reflexivity].
    + split; intros Hin; case_bool_decide; done.
    + split; [intros Hin; by destruct Hempty | reflexivity].
  - unfold Seed.normalizeStatus, Server.normalizeStatus, Server.ALLOWED_STATUS.
    cbv zeta. generalize (JS.toUpperCase (JS.trim match x with
                                                 | Some (String _ _ as s) => s
                                                 | _ => "LIBRE"
                                                 end)) as n.
    intros n. repeat case_bool_decide; simpl; try reflexivity;
      rewrite ?elem_of_cons, ?elem_of_nil in *; intuition congruence.
  - reflexivity.
  - repeat split; reflexivity.
Qed.

(** C6. The two ingestion paths disagree on the comma: the seed script
    turns the first comma into a decimal point, the CSV server deletes
    it, so "1,5" is 1.5 for the former and 15 for the latter. *)
Theorem cleanNumber_paths_diverge `{Host} :
  Seed.cleanNumber (JS.VStr "1,5") = Some (3 # 2)%Q
  /\ Server.cleanNumber (JS.VStr "1,5") = Some 15%Q
  /\ ~ (forall v, Seed.cleanNumber v = Server.cleanNumber v)
  /\ ~ (3 # 2 == 15)%Q
  /\ (forall s,
        Seed.cleanNumber (JS.VStr s)
        = Server.finiteOrNull
            (JS.parseFloat (Server.replaceFirstComma "." (Server.stripNonNumeric s)))
        /\ Server.cleanNumber (JS.VStr s)
           = Server.finiteOrNull
               (JS.parseFloat (Server.replaceFirstComma "" (Server.stripNonNumeric s))))
  /\ (forall a b, allChars notComma a = true ->
        Server.replaceFirstComma "." (a ++ String "," b) = a ++ "." ++ b
        /\ Server.replaceFirstComma "" (a ++ String "," b) = a ++ b).
Proof.
  split; [reflexivity|]. split; [reflexivity|]. split; [|split; [|split]].
  - intros Heq. specialize (Heq (JS.VStr "1,5")). vm_compute in Heq. discriminate.
  - discriminate.
  - intros s. destruct s; split; reflexivity.
  - intros a b Ha. split.
    + apply replaceFirstComma_hit, Ha.
    + rewrite (replaceFirstComma_hit "" a b Ha). reflexivity.
Qed.


(** Only the first comma goes: a second one ends the number. *)
Example cleanNumber_two_commas :
  @Server.cleanNumber exampleHost (JS.VStr "S/ 1,234,567.50") = Some 1234%Q.
Proof. reflexivity. Qed.

(** ** The CSV store *)
Section CsvStore.
Context `{Host}.

Lemma ensureColumns_required (fields : list string) (c : string) :
  c ∈ Server.REQUIRED_COLUMNS -> c ∈ Server.ensureColumns fields.
Proof.
  unfold Server.ensureColumns. generalize Server.REQUIRED_COLUMNS as req.
  intros req. revert fields.
  assert (Hmono : forall (req acc : list string) (d : string), d ∈ acc ->
    d ∈ fold_left (fun next column =>
                     if bool_decide (column ∈ next) then next else (next ++ [column])%list)
                  req acc).
  { clear. induction req as [|r req IH]; simpl; intros acc d Hd; [exact Hd|].
    apply IH. case_bool_decide; [exact Hd|]. apply elem_of_app. by left. }
  induction req as [|r req IH]; simpl; intros fields Hc; [by apply elem_of_nil in Hc|].
  apply elem_of_cons in Hc as [->|Hc]; [|by apply IH].
  apply Hmono. case_bool_decide; [assumption|].
  apply elem_of_app. right. apply elem_of_cons. by left.
Qed.

Lemma unparseRow_lookup (columns : list string) (row : Row) (k : string) :
  k ∈ columns -> Server.unparseRow columns row !! k = Some (default "" (row !! k)).
Proof.
  unfold Server.unparseRow. induction columns as [|c cs IH]; simpl; intros Hk.
  - by apply elem_of_nil in Hk.
  - destruct (decide (c = k)) as [->|Hne].
    + by rewrite lookup_insert_eq.
    + rewrite lookup_insert_ne by done. apply IH.
      apply elem_of_cons in Hk as [->|Hk]; [done | exact Hk].
Qed.

Lemma normalizeText_default (o : option string) :
  Server.normalizeText (Some (default "" o)) = Server.normalizeText o.
Proof. destruct o; reflexivity. Qed.

Lemma normalizeStatus_default (o : option string) :
  Server.normalizeStatus (Some (default "" o)) = Server.normalizeStatus o.
Proof. destruct o; reflexivity. Qed.

Lemma cleanNumber_cell_default (row row' : Row) (k : string) :
  row' !! k = Some (default "" (row !! k)) ->
  Server.cleanNumber (Server.cell row' k) = Server.cleanNumber (Server.cell row k).
Proof. unfold Server.cell. intros ->. destruct (row !! k); reflexivity. Qed.

(** Writing a row out and reading it back does not change its lot. *)
Lemma mapRowToLote_unparseRow (columns : list string) (row : Row) :
  (forall c, c ∈ Server.REQUIRED_COLUMNS -> c ∈ columns) ->
  Server.mapRowToLote (Server.unparseRow columns row) = Server.mapRowToLote row.
Proof.
  intros Hcols.
  assert (Hl : forall k, k ∈ Server.REQUIRED_COLUMNS ->
            Server.unparseRow columns row !! k = Some (default "" (row !! k))).
  { intros k Hk. apply unparseRow_lookup, Hcols, Hk. }
  assert (Hin : forall k, bool_decide (k ∈ Server.REQUIRED_COLUMNS) = true ->
            k ∈ Server.REQUIRED_COLUMNS).
  { intros k. apply bool_decide_eq_true_1. }
  unfold Server.mapRowToLote.
  rewrite (cleanNumber_cell_default row _ "AREA") by (apply Hl, Hin; reflexivity).
  rewrite (cleanNumber_cell_default row _ "PRECIO") by (apply Hl, Hin; reflexivity).
  rewrite !Hl by (apply Hin; reflexivity).
  rewrite !normalizeText_default, normalizeStatus_default. reflexivity.
Qed.

Lemma omap_cons {A B} (f : A -> option B) (x : A) (l : list A) :
  omap f (x :: l) = match f x with Some y => y :: omap f l | None => omap f l end.
Proof. reflexivity. Qed.

Lemma omap_unparseRow (columns : list string) (l : list Row) :
  (forall c, c ∈ Server.REQUIRED_COLUMNS -> c ∈ columns) ->
  omap Server.mapRowToLote (Server.unparseRow columns <$> l) = omap Server.mapRowToLote l.
Proof.
  intros Hcols. induction l as [|r l IH]; [reflexivity|].
  rewrite fmap_cons, !omap_cons, (mapRowToLote_unparseRow _ _ Hcols), IH. reflexivity.
Qed.

Lemma getLotes_readable (w : Server.World) (st : Server.CsvState) :
  Server.file w = Some st ->
  Server.getLotes w = Server.Items (omap Server.mapRowToLote (Server.rows st)).
Proof. unfold Server.getLotes, Server.readCsvState. intros ->. reflexivity. Qed.

Lemma getLotes_Items (w : Server.World) (items : list Lote) :
  Server.getLotes w = Server.Items items ->
  exists st, Server.file w = Some st /\ items = omap Server.mapRowToLote (Server.rows st).
Proof.
  unfold Server.getLotes, Server.readCsvState.
  destruct (Server.file w) as [st|]; simpl; [|discriminate].
  intros [= <-]. eauto.
Qed.

Lemma getLotes_written (st : Server.CsvState) (w : Server.World) :
  Server.getLotes (Server.writeCsvState st w)
  = Server.Items (omap Server.mapRowToLote (Server.rows st)).
Proof.
  unfold Server.getLotes, Server.readCsvState, Server.writeCsvState. simpl.
  rewrite omap_unparseRow; [reflexivity|]. intros c. apply ensureColumns_required.
Qed.

Lemma findIndex_None {A} (f : A -> bool) (l : list A) :
  Server.findIndex f l = None <-> forall x, x ∈ l -> f x = false.
Proof.
  induction l as [|a l IH]; simpl.
  - split; [intros _ x Hx; by apply elem_of_nil in Hx | reflexivity].
  - destruct (f a) eqn:E.
    + split; [discriminate|]. intros Hall. rewrite Hall in E; [discriminate|].
      apply elem_of_cons. by left.
    + rewrite fmap_None, IH. split.
      * intros Hall x [->|Hx]%elem_of_cons; [exact E | by apply Hall].
      * intros Hall x Hx. apply Hall, elem_of_cons. by right.
Qed.

Lemma findIndex_Some {A} (f : A -> bool) (l : list A) (i : nat) :
  Server.findIndex f l = Some i ->
  exists x, l !! i = Some x /\ f x = true
            /\ forall y, y ∈ take i l -> f y = false.
Proof.
  revert i. induction l as [|a l IH]; simpl; intros i; [discriminate|].
  destruct (f a) eqn:E.
  - intros [= <-]. exists a. repeat split; [exact E|].
    intros y Hy. by apply elem_of_nil in Hy.
  - intros Hi. apply fmap_Some in Hi as (j & Hj & ->).
    destruct (IH j Hj) as (x & Hx & Hfx & Hbefore).
    exists x. repeat split; [exact Hx | exact Hfx |].
    intros y [->|Hy]%elem_of_cons; [exact E | by apply Hbefore].
Qed.

(** The row predicate of [PUT] picks the rows whose lot has the id. *)
Lemma matchesId_spec (loteId : string) (row : Row) :
  Server.matchesId loteId row = true
  <-> exists l, Server.mapRowToLote row = Some l /\ id l = loteId.
Proof.
  unfold Server.matchesId, Server.mapRowToLote.
  destruct (JS.toUpperCase (Server.normalizeText (row !! "MZ"))) as [|c r] eqn:Emz.
  - split; [discriminate | intros (l & Hl & _); discriminate].
  - destruct (JS.parseInt (Server.normalizeText (row !! "LOTE"))) as [n|].
    + rewrite bool_decide_eq_true. split.
      * intros Hid. eexists. split; [reflexivity|]. exact Hid.
      * intros (l & [= <-] & Hid). exact Hid.
    + split; [discriminate | intros (l & Hl & _); discriminate].
Qed.

Lemma matchesId_false (loteId : string) (row : Row) :
  Server.matchesId loteId row = false ->
  forall l, Server.mapRowToLote row = Some l -> id l <> loteId.
Proof.
  intros Hf l Hl Hid.
  assert (Server.matchesId loteId row = true) as Ht by (apply matchesId_spec; eauto).
  congruence.
Qed.

End CsvStore.

(** ** Time stamps *)

Lemma allChars_weaken (p q : ascii -> bool) (s : string) :
  (forall c, p c = true -> q c = true) -> allChars p s = true -> allChars q s = true.
Proof.
  intros Hpq. induction s as [|c r IH]; simpl; [reflexivity|].
  intros [Hc Hr]%andb_prop. rewrite (Hpq _ Hc), (IH Hr). reflexivity.
Qed.

Lemma padStart_int_chars (n : Z) :
  allChars notWhiteSpace (JS.padStart (JS.stringOfInt n) 2 "0") = true
  /\ JS.padStart (JS.stringOfInt n) 2 "0" <> "".
Proof.
  destruct (stringOfInt_chars n) as [Hc Hne].
  assert (Hs : allChars notWhiteSpace (JS.stringOfInt n) = true).
  { eapply allChars_weaken; [|exact Hc].
    intros c. destruct c as [[] [] [] [] [] [] [] []]; vm_compute;
      intros ?; first [reflexivity | discriminate]. }
  unfold JS.padStart.
  destruct (Nat.leb 2 (String.length (JS.stringOfInt n))); [by split|].
  split.
  - rewrite allChars_app, Hs, andb_true_r.
    destruct (String.length (JS.stringOfInt n)) as [|[|[|k]]]; reflexivity.
  - destruct (JS.stringOfInt n) as [|c r]; [congruence|].
    destruct (fillTo_app_nonempty "0" "0" (2 - String.length (String c r)) c r) as [x [y ->]].
    discriminate.
Qed.

Lemma cleanHead_app (a b : string) :
  a <> "" -> allChars notWhiteSpace a = true -> cleanHead (a ++ b).
Proof.
  destruct a as [|c r]; [congruence|]. intros _. push_app. simpl.
  intros [Hc _]%andb_prop. unfold notWhiteSpace in Hc. by apply negb_true_iff in Hc.
Qed.

(** The time stamp has no white space at either end and is not empty. *)
Lemma toCurrentTimestamp_trimmed (now : Date) :
  JS.trim (Server.toCurrentTimestamp now) = Server.toCurrentTimestamp now
  /\ Server.toCurrentTimestamp now <> "".
Proof.
  unfold Server.toCurrentTimestamp. cbv zeta.
  destruct (padStart_int_chars (getDate now)) as [Hd Hdne].
  destruct (padStart_int_chars (getSeconds now)) as [Hs Hsne].
  set (dd := JS.padStart (JS.stringOfInt (getDate now)) 2 "0") in *.
  set (ss := JS.padStart (JS.stringOfInt (getSeconds now)) 2 "0") in *.
  split.
  - unfold JS.trim. rewrite trimStart_fixed by (by apply cleanHead_app).
    rewrite <- !app_assoc_s. by apply trimEnd_app_fixed.
  - destruct dd; [congruence|]. push_app. discriminate.
Qed.

Lemma orUndefined_timestamp (now : Date) :
  Server.orUndefined (Server.normalizeText (Some (Server.toCurrentTimestamp now)))
  = Some (Server.toCurrentTimestamp now).
Proof.
  destruct (toCurrentTimestamp_trimmed now) as [Ht Hne].
  unfold Server.normalizeText. simpl default. rewrite Ht.
  destruct (Server.toCurrentTimestamp now); [congruence | reflexivity].
Qed.

(** ** Updating a row *)
Section Update.
Context `{Host}.

Lemma normalizeText_idem (o : option string) :
  Server.normalizeText (Some (Server.normalizeText o)) = Server.normalizeText o.
Proof. unfold Server.normalizeText. simpl default. apply trim_idem. Qed.

Lemma orUndefined_patched (patch previous : option string) :
  Server.orUndefined
    (Server.normalizeText (Some (Server.normalizeText (Server.coalesce patch previous))))
  = Spec.patchedText patch (Server.orUndefined (Server.normalizeText previous)).
Proof. rewrite normalizeText_idem. destruct patch; reflexivity. Qed.

Lemma normalizeStatus_patched (patch previous : option string) :
  Server.normalizeStatus
    (Some (Server.normalizeStatus (Server.coalesce patch previous)))
  = match patch with
    | Some e => Server.normalizeStatus (Some e)
    | None => Server.normalizeStatus previous
    end.
Proof. rewrite normalizeStatus_idem. destruct patch; reflexivity. Qed.

Ltac patch_lookup :=
  unfold Server.patchRow; cbv zeta;
  match goal with |- context [p_price ?p] => destruct (p_price p) end;
  simplify_map_eq; reflexivity.

Lemma patchRow_MZ now payload (row : Row) :
  Server.patchRow now payload row !! "MZ" = row !! "MZ".
Proof. patch_lookup. Qed.

Lemma patchRow_LOTE now payload (row : Row) :
  Server.patchRow now payload row !! "LOTE" = row !! "LOTE".
Proof. patch_lookup. Qed.

Lemma patchRow_AREA now payload (row : Row) :
  Server.patchRow now payload row !! "AREA" = row !! "AREA".
Proof. patch_lookup. Qed.

Lemma patchRow_CONDICION now payload (row : Row) :
  Server.patchRow now payload row !! "CONDICION"
  = Some (Server.normalizeStatus (Server.coalesce (p_estado payload) (row !! "CONDICION"))).
Proof. patch_lookup. Qed.

Lemma patchRow_ASESOR now payload (row : Row) :
  Server.patchRow now payload row !! "ASESOR"
  = Some (Server.normalizeText (Server.coalesce (p_asesor payload) (row !! "ASESOR"))).
Proof. patch_lookup. Qed.

Lemma patchRow_CLIENTE now payload (row : Row) :
  Server.patchRow now payload row !! "CLIENTE"
  = Some (Server.normalizeText (Server.coalesce (p_cliente payload) (row !! "CLIENTE"))).
Proof. patch_lookup. Qed.

Lemma patchRow_COMENTARIO now payload (row : Row) :
  Server.patchRow now payload row !! "COMENTARIO"
  = Some (Server.normalizeText (Server.coalesce (p_comentario payload) (row !! "COMENTARIO"))).
Proof. patch_lookup. Qed.

Lemma patchRow_ULTIMA now payload (row : Row) :
  Server.patchRow now payload row !! "ULTIMA_MODIFICACION"
  = Some (Server.toCurrentTimestamp now).
Proof. patch_lookup. Qed.

(** The PRECIO cell: untouched when the payload has no price, else the
    cleaned price with two decimals, or empty when it cleans to null. *)
Lemma patchRow_PRECIO now payload (row : Row) :
  Server.patchRow now payload row !! "PRECIO"
  = match p_price payload with
    | JS.VUndefined => row !! "PRECIO"
    | v => Some (match Server.cleanNumber v with
                 | None => ""
                 | Some q => toFixed2 q
                 end)
    end.
Proof.
  unfold Server.patchRow; cbv zeta.
  destruct (p_price payload) eqn:E; simplify_map_eq; try reflexivity;
    unfold Server.formatReal; destruct (Server.cleanNumber _); reflexivity.
Qed.

Lemma cleanNumber_patched_price now payload (row : Row) :
  Server.cleanNumber (Server.cell (Server.patchRow now payload row) "PRECIO")
  = match p_price payload with
    | JS.VUndefined => Server.cleanNumber (Server.cell row "PRECIO")
    | v => Spec.storedPrice v
    end.
Proof.
  unfold Server.cell. rewrite patchRow_PRECIO. unfold Spec.storedPrice.
  destruct (p_price payload); try reflexivity;
    match goal with
    | |- context [match Server.cleanNumber ?v with _ => _ end] =>
        destruct (Server.cleanNumber v)
    end; reflexivity.
Qed.

(** The lot of the patched row is the lot the specification describes. *)
Lemma mapRowToLote_patchRow now payload (row : Row) (old : Lote) :
  Server.mapRowToLote row = Some old ->
  Server.mapRowToLote (Server.patchRow now payload row)
  = Some (Spec.updatedLote now payload old).
Proof.
  unfold Server.mapRowToLote.
  rewrite cleanNumber_patched_price.
  replace (Server.cell (Server.patchRow now payload row) "AREA")
    with (Server.cell row "AREA") by (unfold Server.cell; by rewrite patchRow_AREA).
  rewrite patchRow_MZ, patchRow_LOTE, patchRow_CONDICION, patchRow_ASESOR,
    patchRow_CLIENTE, patchRow_COMENTARIO, patchRow_ULTIMA.
  rewrite orUndefined_timestamp, !orUndefined_patched, normalizeStatus_patched.
  destruct (JS.toUpperCase (Server.normalizeText (row !! "MZ"))) as [|c r];
    [discriminate|].
  destruct (JS.parseInt (Server.normalizeText (row !! "LOTE"))) as [n|];
    [|discriminate].
  intros [= <-]. unfold Spec.updatedLote. simpl. reflexivity.
Qed.

End Update.

(** ** The two routes of the CSV server *)
Section Routes.
Context `{Host}.

Lemma putLote_at_index now id_ payload (w : Server.World) (st : Server.CsvState) index :
  Server.file w = Some st ->
  Server.findIndex (Server.matchesId (requestedId id_)) (Server.rows st) = Some index ->
  exists row0 old,
    Server.rows st !! index = Some row0
    /\ Server.mapRowToLote row0 = Some old
    /\ id old = requestedId id_
    /\ (forall l, l ∈ omap Server.mapRowToLote (take index (Server.rows st)) ->
          id l <> requestedId id_)
    /\ Server.putLote now id_ payload w
       = (Server.Item (Some (Spec.updatedLote now payload old)),
          Server.writeCsvState
            {| Server.rows := <[index := Server.patchRow now payload row0]> (Server.rows st);
               Server.fields := Server.ensureColumns (Server.fields st) |} w).
Proof.
  intros Hfile Hfind.
  destruct (findIndex_Some _ _ _ Hfind) as (row0 & Hrow0 & Hmatch & Hbefore).
  apply matchesId_spec in Hmatch as (old & Hold & Hid).
  exists row0, old. repeat split; try assumption.
  - intros l Hl. apply list_elem_of_omap in Hl as (row & Hrow & Hl).
    eapply matchesId_false; [apply Hbefore, Hrow | exact Hl].
  - unfold Server.putLote, Server.readCsvState. rewrite Hfile. simpl.
    fold (Server.normalizeText (Some id_)).
    change (JS.toUpperCase (Server.normalizeText (Some id_))) with (requestedId id_).
    rewrite Hfind, Hrow0, (mapRowToLote_patchRow _ _ _ _ Hold). reflexivity.
Qed.

Lemma present_findIndex (items : list Lote) (rows : list Row) (loteId : string) :
  items = omap Server.mapRowToLote rows ->
  (exists l, l ∈ items /\ id l = loteId) ->
  exists index, Server.findIndex (Server.matchesId loteId) rows = Some index.
Proof.
  intros -> (l & Hl & Hid).
  destruct (Server.findIndex (Server.matchesId loteId) rows) as [i|] eqn:E; [eauto|].
  apply list_elem_of_omap in Hl as (row & Hrow & Hl).
  rewrite findIndex_None in E. specialize (E row Hrow).
  exfalso. eapply matchesId_false; eauto.
Qed.

(** Updating a lot that is present: the first lot with the id is the one
    replaced, in the response and in every later listing. *)
Lemma putLote_found now id_ payload (w : Server.World) (items : list Lote) :
  Server.getLotes w = Server.Items items ->
  (exists l, l ∈ items /\ id l = requestedId id_) ->
  exists before old after,
    items = (before ++ old :: after)%list
    /\ id old = requestedId id_
    /\ (forall l, l ∈ before -> id l <> requestedId id_)
    /\ fst (Server.putLote now id_ payload w)
       = Server.Item (Some (Spec.updatedLote now payload old))
    /\ Server.getLotes (snd (Server.putLote now id_ payload w))
       = Server.Items (before ++ Spec.updatedLote now payload old :: after)%list
    /\ Server.writes (snd (Server.putLote now id_ payload w)) = S (Server.writes w).
Proof.
  intros Hget Hpresent.
  destruct (getLotes_Items _ _ Hget) as (st & Hfile & Hitems).
  destruct (present_findIndex _ _ _ Hitems Hpresent) as (index & Hfind).
  destruct (putLote_at_index now id_ payload w st index Hfile Hfind)
    as (row0 & old & Hrow0 & Hold & Hid & Hbefore & Hput).
  exists (omap Server.mapRowToLote (take index (Server.rows st))), old,
         (omap Server.mapRowToLote (drop (S index) (Server.rows st))).
  rewrite Hput. simpl fst. simpl snd.
  repeat split; try assumption.
  - rewrite Hitems. rewrite <- (take_drop_middle _ _ _ Hrow0) at 1.
    rewrite omap_app, omap_cons, Hold. reflexivity.
  - rewrite getLotes_written. simpl Server.rows.
    rewrite insert_take_drop by (eapply lookup_lt_Some, Hrow0).
    rewrite omap_app, omap_cons, (mapRowToLote_patchRow _ _ _ _ Hold). reflexivity.
Qed.

End Routes.


(** C3. Not-found atomicity: when no lot of the dataset has the
    requested id (trimmed, uppercased), [PUT /api/lotes/:id] answers 404
    and the world is returned as it was: same file content, no write. *)
Theorem not_found_leaves_dataset `{Host} now id_ payload (w : Server.World)
    (items : list Lote) :
  Server.getLotes w = Server.Items items ->
  (forall l, l ∈ items -> id l <> requestedId id_) ->
  Server.putLote now id_ payload w = (Server.Status404, w).
Proof.
  intros Hget Habsent.
  destruct (getLotes_Items _ _ Hget) as (st & Hfile & Hitems).
  assert (Hnone : Server.findIndex (Server.matchesId (requestedId id_)) (Server.rows st)
                  = None).
  { apply findIndex_None. intros row Hrow.
    destruct (Server.matchesId (requestedId id_) row) eqn:E; [|reflexivity].
    apply matchesId_spec in E as (l & Hl & Hid).
    exfalso. apply (Habsent l); [|exact Hid].
    rewrite Hitems. apply list_elem_of_omap. eauto. }
  unfold Server.putLote, Server.readCsvState. rewrite Hfile. simpl.
  fold (Server.normalizeText (Some id_)).
  change (JS.toUpperCase (Server.normalizeText (Some id_))) with (requestedId id_).
  rewrite Hnone. reflexivity.
Qed.

Lemma mapRowToLote_wellFormed `{Host} (row : Row) :
  (Spec.wellFormed row = true -> exists l, Server.mapRowToLote row = Some l)
  /\ (Spec.wellFormed row = false -> Server.mapRowToLote row = None).
Proof.
  unfold Spec.wellFormed, Server.mapRowToLote, Server.normalizeText.
  destruct (JS.trim (default "" (row !! "MZ"))) as [|c r]; simpl.
  - split; [discriminate | reflexivity].
  - destruct (JS.parseInt (JS.trim (default "" (row !! "LOTE")))) as [n|].
    + split; [eauto | intros Hf; rewrite bool_decide_eq_false in Hf; destruct Hf; eauto].
    + split; [intros Ht; rewrite bool_decide_eq_true in Ht; by destruct Ht | reflexivity].
Qed.

Lemma omap_filter_wellFormed `{Host} (l : list Row) :
  omap Server.mapRowToLote l
  = omap Server.mapRowToLote (filter (fun row => Spec.wellFormed row = true) l)
  /\ length (omap Server.mapRowToLote l)
     = length (filter (fun row => Spec.wellFormed row = true) l).
Proof.
  induction l as [|row l [IH1 IH2]]; [by split|].
  rewrite filter_cons, omap_cons.
  destruct (mapRowToLote_wellFormed row) as [Ht Hf].
  destruct (Spec.wellFormed row) eqn:E.
  - destruct (Ht eq_refl) as [x Hx]. rewrite decide_True by reflexivity.
    rewrite omap_cons, Hx. simpl. rewrite <- IH1, IH2. by split.
  - rewrite (Hf eq_refl). rewrite decide_False by discriminate. by split.
Qed.

(** C4. Malformed-row isolation: [GET /api/lotes] answers with a list
    whenever the file can be read; a row whose MZ is empty after
    trimming or whose LOTE does not parse as an integer contributes
    nothing, every other row contributes its lot, in file order. *)
Theorem malformed_rows_excluded `{Host} (w : Server.World) (st : Server.CsvState) :
  Server.file w = Some st ->
  exists items,
    Server.getLotes w = Server.Items items
    /\ items = omap Server.mapRowToLote
                 (filter (fun row => Spec.wellFormed row = true) (Server.rows st))
    /\ length items
       = length (filter (fun row => Spec.wellFormed row = true) (Server.rows st))
    /\ (forall row, row ∈ Server.rows st -> Spec.wellFormed row = true ->
          exists l, Server.mapRowToLote row = Some l /\ l ∈ items)
    /\ (forall l, l ∈ items ->
          exists row, row ∈ Server.rows st /\ Spec.wellFormed row = true
                      /\ Server.mapRowToLote row = Some l)
    /\ (forall row : Row,
          Spec.wellFormed row = false
          <-> JS.trim (default "" (row !! "MZ")) = ""
              \/ JS.parseInt (JS.trim (default "" (row !! "LOTE"))) = None)
    /\ (forall row, Spec.wellFormed row = false -> Server.mapRowToLote row = None).
Proof.
  intros Hfile. exists (omap Server.mapRowToLote (Server.rows st)).
  destruct (omap_filter_wellFormed (Server.rows st)) as [Hsame Hlen].
  split; [by apply getLotes_readable|].
  split; [exact Hsame|]. split; [exact Hlen|].
  split; [|split; [|split]].
  - intros row Hrow Hwf. destruct (mapRowToLote_wellFormed row) as [Ht _].
    destruct (Ht Hwf) as [l Hl]. exists l. split; [exact Hl|].
    apply list_elem_of_omap. eauto.
  - intros l Hl. apply list_elem_of_omap in Hl as (row & Hrow & Hl).
    exists row. repeat split; [exact Hrow | | exact Hl].
    destruct (Spec.wellFormed row) eqn:E; [reflexivity|].
    destruct (mapRowToLote_wellFormed row) as [_ Hf]. rewrite (Hf E) in Hl. discriminate.
  - intros row. unfold Spec.wellFormed.
    destruct (JS.trim (default "" (row !! "MZ"))) as [|c r]; simpl.
    + split; [by left | reflexivity].
    + rewrite bool_decide_eq_false.
      destruct (JS.parseInt (JS.trim (default "" (row !! "LOTE")))) as [n|].
      * split; [intros Hn; destruct Hn; eauto | intros [?|?]; discriminate].
      * split; [by right | intros _ [x Hx]; discriminate].
  - intros row. apply mapRowToLote_wellFormed.
Qed.

(** C10. Updating a price to zero clears it: the number 0 is falsy, so
    the server's [cleanNumber] answers null for it; [PUT] with
    [price: 0] on a lot that is present stores an empty PRECIO cell, and
    the lot in the response and in the following listing has no price. *)
Theorem price_zero_clears `{Host} now id_ payload (w : Server.World) (items : list Lote) :
  Server.getLotes w = Server.Items items ->
  (exists l, l ∈ items /\ id l = requestedId id_) ->
  p_price payload = JS.VNum 0 ->
  Server.cleanNumber (JS.VNum 0) = None
  /\ exists before old after updated st' index row',
       items = (before ++ old :: after)%list
       /\ id old = requestedId id_
       /\ fst (Server.putLote now id_ payload w) = Server.Item (Some updated)
       /\ id updated = requestedId id_
       /\ price updated = None
       /\ Server.getLotes (snd (Server.putLote now id_ payload w))
          = Server.Items (before ++ updated :: after)%list
       /\ Server.file (snd (Server.putLote now id_ payload w)) = Some st'
       /\ Server.rows st' !! index = Some row'
       /\ row' !! "PRECIO" = Some ""
       /\ Server.mapRowToLote row' = Some updated.
Proof.
  intros Hget Hpresent Hprice. split; [reflexivity|].
  destruct (getLotes_Items _ _ Hget) as (st & Hfile & Hitems).
  destruct (present_findIndex _ _ _ Hitems Hpresent) as (index & Hfind).
  destruct (putLote_at_index now id_ payload w st index Hfile Hfind)
    as (row0 & old & Hrow0 & Hold & Hid & Hbefore & Hput).
  pose proof (mapRowToLote_patchRow now payload row0 old Hold) as Hnew.
  set (cols := Server.ensureColumns (Server.ensureColumns (Server.fields st))).
  assert (Hcols : forall c, c ∈ Server.REQUIRED_COLUMNS -> c ∈ cols).
  { intros c. apply ensureColumns_required. }
  exists (omap Server.mapRowToLote (take index (Server.rows st))), old,
         (omap Server.mapRowToLote (drop (S index) (Server.rows st))),
         (Spec.updatedLote now payload old).
  eexists _, index, (Server.unparseRow cols (Server.patchRow now payload row0)).
  rewrite Hput. simpl fst. simpl snd.
  split; [|split; [exact Hid|split; [reflexivity|split; [exact Hid|split;
    [|split; [|split; [reflexivity|split; [|split]]]]]]]].
  - rewrite Hitems. rewrite <- (take_drop_middle _ _ _ Hrow0) at 1.
    rewrite omap_app, omap_cons, Hold. reflexivity.
  - simpl. rewrite Hprice. reflexivity.
  - rewrite getLotes_written. simpl Server.rows.
    rewrite insert_take_drop by (eapply lookup_lt_Some, Hrow0).
    rewrite omap_app, omap_cons, Hnew. reflexivity.
  - simpl Server.rows. rewrite list_lookup_fmap.
    rewrite list_lookup_insert_eq by (eapply lookup_lt_Some, Hrow0). reflexivity.
  - rewrite unparseRow_lookup by (apply Hcols; by apply (bool_decide_unpack _)).
    rewrite patchRow_PRECIO, Hprice. reflexivity.
  - rewrite (mapRowToLote_unparseRow _ _ Hcols). exact Hnew.
Qed.

(** ** Quote and proforma arithmetic *)

Lemma Math_max_nonneg (a : Q) : (0 <= JS.Math_max a 0)%Q.
Proof. apply Q.le_max_r. Qed.

Lemma Math_max_id (a : Q) : (0 <= a)%Q -> (JS.Math_max a 0 == a)%Q.
Proof. intros Ha. apply Q.max_l, Ha. Qed.

Lemma clamp_between (v lo hi : Q) :
  (lo <= hi)%Q -> (lo <= App.clamp v lo hi)%Q /\ (App.clamp v lo hi <= hi)%Q.
Proof.
  intros Hle. unfold App.clamp, JS.Math_min, JS.Math_max. split.
  - apply Q.min_glb; [apply Q.le_max_r | exact Hle].
  - apply Q.le_min_r.
Qed.

Lemma clamp_inside (v lo hi : Q) :
  (lo <= v)%Q -> (v <= hi)%Q -> (App.clamp v lo hi == v)%Q.
Proof.
  intros Hlo Hhi. unfold App.clamp, JS.Math_min, JS.Math_max.
  rewrite (Q.max_l v lo Hlo). apply Q.min_l, Hhi.
Qed.

Lemma truthyNum_false (r : Q) : JS.truthyNum r = false -> (r == 0)%Q.
Proof.
  unfold JS.truthyNum. intros E. apply negb_false_iff in E. by apply Qeq_bool_eq.
Qed.

Lemma truthyNum_true (r : Q) : JS.truthyNum r = true -> ~ (r == 0)%Q.
Proof.
  unfold JS.truthyNum. intros E Hr. apply negb_true_iff in E.
  apply Qeq_eq_bool in Hr. congruence.
Qed.

(** A part of a positive whole, as a percentage. *)
Lemma ratio_pct (x r : Q) :
  (0 <= x)%Q -> (x <= r)%Q ->
  (0 <= (if JS.truthyNum r then x / r * 100 else 0))%Q
  /\ ((if JS.truthyNum r then x / r * 100 else 0) <= 100)%Q.
Proof.
  intros Hx Hxr. destruct (JS.truthyNum r) eqn:E; [|split; lra].
  apply truthyNum_true in E.
  assert (Hr : (0 < r)%Q) by (destruct (Qlt_le_dec 0 r) as [?|Hle]; [assumption|];
                               exfalso; apply E; lra).
  assert (H0 : (0 <= x / r)%Q) by (apply Qle_shift_div_l; [exact Hr | lra]).
  assert (H1 : (x / r <= 1)%Q) by (apply Qle_shift_div_r; [exact Hr | lra]).
  split; lra.
Qed.

(** A percentage of a non-negative whole. *)
Lemma pct_amount (p r : Q) :
  (0 <= p)%Q -> (p <= 100)%Q -> (0 <= r)%Q ->
  (0 <= p / 100 * r)%Q /\ (p / 100 * r <= r)%Q.
Proof.
  intros Hp0 Hp1 Hr.
  assert (H0 : (0 <= p / 100)%Q) by (apply Qle_shift_div_l; lra).
  assert (H1 : (p / 100 <= 1)%Q) by (apply Qle_shift_div_r; lra).
  split; nra.
Qed.

Lemma reconciled_intro (regular promo ds dp : Q) r :
  App.precioRegular r = regular -> App.precioPromocional r = promo ->
  App.descuentoSoles r = ds -> App.descuentoPct r = dp ->
  (0 <= ds)%Q -> (ds <= regular)%Q -> (0 <= dp)%Q -> (dp <= 100)%Q ->
  (promo == regular - ds)%Q -> reconciled r.
Proof.
  unfold reconciled. intros -> -> -> -> H1 H2 H3 H4 H5. repeat split; try assumption; lra.
Qed.

Lemma recalcProforma_reconciled edited fechaEn draft :
  reconciled (App.recalcProforma edited fechaEn draft).
Proof.
  pose proof (Math_max_nonneg (App.precioRegular draft)) as Hreg.
  set (regular := JS.Math_max (App.precioRegular draft) 0) in *.
  destruct edited as [[| |]|].
  - (* soles *)
    set (ds := App.clamp (JS.Math_max (App.descuentoSoles draft) 0) 0 regular).
    destruct (clamp_between (JS.Math_max (App.descuentoSoles draft) 0) 0 _ Hreg)
      as [Ha Hb]. fold ds in Ha, Hb.
    destruct (ratio_pct _ _ Ha Hb) as [Hc Hd].
    apply (reconciled_intro regular (JS.Math_max (regular - ds) 0) ds
             (if JS.truthyNum regular then ds / regular * 100 else 0)%Q);
      try reflexivity; try assumption.
    apply Math_max_id. lra.
  - (* pct *)
    set (dp := App.clamp (JS.Math_max (App.descuentoPct draft) 0) 0 100).
    destruct (clamp_between (JS.Math_max (App.descuentoPct draft) 0) 0 100) as [Ha Hb];
      [lra|]. fold dp in Ha, Hb.
    destruct (pct_amount _ _ Ha Hb Hreg) as [Hc Hd].
    apply (reconciled_intro regular (JS.Math_max (regular - dp / 100 * regular) 0)
             (dp / 100 * regular)%Q dp);
      try reflexivity; try assumption.
    apply Math_max_id. lra.
  - (* promo *)
    set (pr := App.clamp (JS.Math_max (App.precioPromocional draft) 0) 0 regular).
    destruct (clamp_between (JS.Math_max (App.precioPromocional draft) 0) 0 _ Hreg)
      as [Ha Hb]. fold pr in Ha, Hb.
    assert (Hds : (JS.Math_max (regular - pr) 0 == regular - pr)%Q)
      by (apply Math_max_id; lra).
    assert (H0 : (0 <= JS.Math_max (regular - pr) 0)%Q) by apply Math_max_nonneg.
    assert (H1 : (JS.Math_max (regular - pr) 0 <= regular)%Q) by lra.
    destruct (ratio_pct _ _ H0 H1) as [Hc Hd].
    apply (reconciled_intro regular pr (JS.Math_max (regular - pr) 0)
             (if JS.truthyNum regular
              then JS.Math_max (regular - pr) 0 / regular * 100 else 0)%Q);
      try reflexivity; try assumption. lra.
  - (* nothing edited: the promotional price rules *)
    set (pr := App.clamp (JS.Math_max (App.precioPromocional draft) 0) 0 regular).
    destruct (clamp_between (JS.Math_max (App.precioPromocional draft) 0) 0 _ Hreg)
      as [Ha Hb]. fold pr in Ha, Hb.
    assert (Hds : (JS.Math_max (regular - pr) 0 == regular - pr)%Q)
      by (apply Math_max_id; lra).
    assert (H0 : (0 <= JS.Math_max (regular - pr) 0)%Q) by apply Math_max_nonneg.
    assert (H1 : (JS.Math_max (regular - pr) 0 <= regular)%Q) by lra.
    destruct (ratio_pct _ _ H0 H1) as [Hc Hd].
    apply (reconciled_intro regular pr (JS.Math_max (regular - pr) 0)
             (if JS.truthyNum regular
              then JS.Math_max (regular - pr) 0 / regular * 100 else 0)%Q);
      try reflexivity; try assumption. lra.
Qed.

(** Half off: what a 50 % discount gives on a non-negative price. *)
Lemma half_discount fechaEn draft :
  (0 <= App.precioRegular draft)%Q ->
  let r := App.onChangeDescuentoPct fechaEn 50 draft in
  (App.precioPromocional r == App.precioRegular draft * (1 # 2))%Q
  /\ (App.descuentoSoles r == App.precioRegular draft * (1 # 2))%Q
  /\ App.descuentoPct r = 50%Q
  /\ (App.precioRegular r == App.precioRegular draft)%Q.
Proof.
  intros Hreg r.
  pose proof (Math_max_id _ Hreg) as Hmax.
  set (regular := JS.Math_max (App.precioRegular draft) 0) in *.
  assert (Hds : App.descuentoSoles r = (50 / 100 * regular)%Q) by reflexivity.
  assert (Hpr : App.precioPromocional r
                = JS.Math_max (regular - 50 / 100 * regular) 0) by reflexivity.
  assert (Hrr : App.precioRegular r = regular) by reflexivity.
  rewrite Hds, Hpr, Hrr.
  assert (Hh : (50 / 100 == 1 # 2)%Q) by reflexivity.
  assert (Hd : (50 / 100 * regular == regular * (1 # 2))%Q) by (rewrite Hh; ring).
  repeat split; try reflexivity.
  - rewrite Math_max_id by lra. lra.
  - lra.
  - exact Hmax.
Qed.

(** C5. Discount reconciliation: whatever field was edited last, after
    [recalcProforma] the discount lies between 0 and the regular price,
    the percentage between 0 and 100, and the promotional price is the
    regular price minus the discount, itself between 0 and the regular
    price.  Entering 50 in the percentage field of a proforma whose
    regular price is not negative makes both the promotional price and
    the discount half the regular price.  (Numbers are exact rationals.) *)
Theorem discount_reconciliation (edited : option App.PriceField) (fechaEn : Q -> string)
    (draft : App.ProformaState) :
  (let r := App.recalcProforma edited fechaEn draft in
   ((0 <= App.descuentoSoles r)%Q /\ (App.descuentoSoles r <= App.precioRegular r)%Q)
   /\ ((0 <= App.descuentoPct r)%Q /\ (App.descuentoPct r <= 100)%Q)
   /\ (App.precioPromocional r == App.precioRegular r - App.descuentoSoles r)%Q
   /\ ((0 <= App.precioPromocional r)%Q
       /\ (App.precioPromocional r <= App.precioRegular r)%Q))
  /\ ((0 <= App.precioRegular draft)%Q ->
      let r := App.onChangeDescuentoPct fechaEn 50 draft in
      (App.precioPromocional r == App.precioRegular draft * (1 # 2))%Q
      /\ (App.descuentoSoles r == App.precioRegular draft * (1 # 2))%Q
      /\ App.descuentoPct r = 50%Q
      /\ (App.precioRegular r == App.precioRegular draft)%Q).
Proof.
  split.
  - exact (recalcProforma_reconciled edited fechaEn draft).
  - apply half_discount.
Qed.

(** ** The down-payment floor *)


Lemma orZero_eq (x : Q) : (App.orZero x == x)%Q.
Proof.
  unfold App.orZero. destruct (JS.truthyNum x) eqn:E; [reflexivity|].
  apply truthyNum_false in E. lra.
Qed.

Lemma recalcProforma_inicial edited fechaEn draft :
  (App.inicial draft <= 6000)%Q ->
  (App.inicial (App.recalcProforma edited fechaEn draft) == 6000)%Q.
Proof.
  intros Hd.
  assert (E : App.inicial (App.recalcProforma edited fechaEn draft)
              = JS.Math_max (App.orZero (App.inicial draft)) 6000).
  { destruct edited as [[| |]|]; reflexivity. }
  rewrite E. apply Q.max_r. rewrite orZero_eq. exact Hd.
Qed.


(** ** Lot identifiers *)

Lemma length_app_s (a b : string) :
  String.length (a ++ b) = (String.length a + String.length b)%nat.
Proof. induction a as [|c r IH]; push_app; simpl; [|rewrite IH]; reflexivity. Qed.

Lemma fillTo_length (fill cur : string) (n : nat) :
  fill <> "" -> String.length (JS.fillTo fill cur n) = n.
Proof.
  intros Hfill. revert cur. induction n as [|n IH]; intros cur; simpl; [reflexivity|].
  destruct cur as [|c r]; [destruct fill as [|c r]; [congruence|]|]; simpl; by rewrite IH.
Qed.

Lemma padStart_length (s : string) :
  String.length (JS.padStart s 2 "0") = Nat.max 2 (String.length s).
Proof.
  unfold JS.padStart. destruct (Nat.leb 2 (String.length s)) eqn:E.
  - apply Nat.leb_le in E. lia.
  - apply Nat.leb_gt in E. rewrite length_app_s, fillTo_length by discriminate. lia.
Qed.

Lemma padStart_one_digit (n : Z) :
  (0 <= n < 10)%Z -> JS.padStart (JS.stringOfInt n) 2 "0" = "0" ++ JS.stringOfInt n.
Proof.
  intros Hn. rewrite <- (Z2Nat.id n) by lia.
  assert (Hk : (Z.to_nat n < 10)%nat) by lia.
  revert Hk. generalize (Z.to_nat n) as k. intros k Hk.
  do 10 (destruct k as [|k]; [reflexivity|]). lia.
Qed.

(** C2 (as amended). Identifier derivation.  The server's and the
    client's [toLoteId] join the block name as given, a dash and the lot
    number left-padded with zeros to two characters; they neither trim
    nor uppercase, their callers do so before the call.  The database
    adapter's [toLoteId] trims and uppercases the block name itself, so
    it is insensitive to case and outer white space, and on every id
    derived from a CSV row the variants coincide. *)
Theorem toLoteId_format `{Host} (m : string) (n : Z) :
  Server.toLoteId m n = m ++ "-" ++ JS.padStart (JS.stringOfInt n) 2 "0"
  /\ App.toLoteId m n = Server.toLoteId m n
  /\ LotesService.toLoteId m n = Server.toLoteId (JS.toUpperCase (JS.trim m)) n
  /\ (forall m', JS.toUpperCase m' = JS.toUpperCase m ->
        LotesService.toLoteId m' n = LotesService.toLoteId m n)
  /\ LotesService.toLoteId (JS.trim m) n = LotesService.toLoteId m n
  /\ String.length (JS.padStart (JS.stringOfInt n) 2 "0")
     = Nat.max 2 (String.length (JS.stringOfInt n))
  /\ ((0 <= n < 10)%Z ->
      JS.padStart (JS.stringOfInt n) 2 "0" = "0" ++ JS.stringOfInt n)
  /\ (forall (row : Row) l, Server.mapRowToLote row = Some l ->
        id l = LotesService.toLoteId (default "" (row !! "MZ")) (lote l)
        /\ id l = Server.toLoteId (mz l) (lote l))
  /\ LotesService.toLoteId "a" 7 = "A-07"
  /\ LotesService.toLoteId "B" 12 = "B-12"
  /\ Server.toLoteId "A" 7 = "A-07"
  /\ Server.toLoteId "B" 12 = "B-12".
Proof.
  split; [reflexivity|]. split; [reflexivity|]. split; [reflexivity|].
  split; [|split; [|split; [apply padStart_length|split; [apply padStart_one_digit|split]]]].
  - intros m' Hup. unfold LotesService.toLoteId.
    rewrite <- !trim_toUpperCase, Hup. reflexivity.
  - unfold LotesService.toLoteId. rewrite trim_idem. reflexivity.
  - intros row l. unfold Server.mapRowToLote, Server.normalizeText.
    destruct (JS.toUpperCase (JS.trim (default "" (row !! "MZ")))) as [|c r] eqn:E;
      [discriminate|].
    destruct (JS.parseInt _) as [k|]; [|discriminate].
    intros [= <-]. simpl. unfold LotesService.toLoteId, Server.toLoteId.
    rewrite E. by split.
  - repeat split; reflexivity.
Qed.

(** C2, the claim as written fails on the cited helpers: the server's
    and the client's [toLoteId] leave the block name untouched. *)
Lemma toLoteId_keeps_case :
  Server.toLoteId "a" 7 = "a-07"
  /\ App.toLoteId "a" 7 = "a-07"
  /\ Server.toLoteId " b " 12 = " b -12"
  /\ Server.toLoteId "a" 7 <> "A-07".
Proof. repeat split; try reflexivity. discriminate. Qed.

(** ** The claims at work on the sample data *)

Lemma getLotes_exampleWorld :
  @Server.getLotes exampleHost exampleWorld = Server.Items [exampleLote].
Proof. vm_compute. reflexivity. Defined.

Lemma exampleLote_present (id_ : string) :
  requestedId id_ = "A-07" ->
  exists l, l ∈ [exampleLote] /\ id l = requestedId id_.
Proof.
  intros ->. exists exampleLote. split; [apply elem_of_cons; by left | reflexivity].
Defined.

Lemma singleton_split {A} (x : A) (before after : list A) (old : A) :
  [x] = (before ++ old :: after)%list -> before = [] /\ old = x /\ after = [].
Proof.
  destruct before as [|y before]; simpl.
  - intros [= -> <-]. by repeat split.
  - intros [= _ Hnil]. destruct before; discriminate.
Defined.



(** C3 on the sample data: nothing is called "Z-99". *)
Lemma not_found_witness :
  @Server.getLotes exampleHost exampleWorld = Server.Items [exampleLote]
  /\ (forall l, l ∈ [exampleLote] -> id l <> requestedId "Z-99")
  /\ @Server.putLote exampleHost exampleNow "Z-99" examplePatch exampleWorld
     = (Server.Status404, exampleWorld).
Proof.
  pose proof getLotes_exampleWorld as H1.
  assert (H2 : forall l, l ∈ [exampleLote] -> id l <> requestedId "Z-99").
  { intros l Hl. apply elem_of_cons in Hl as [->|Hl]; [discriminate|].
    by apply elem_of_nil in Hl. }
  split; [exact H1|]. split; [exact H2|].
  exact (@not_found_leaves_dataset exampleHost exampleNow "Z-99" examplePatch
           exampleWorld [exampleLote] H1 H2).
Defined.

(** C4 on the sample data: one row without a lot number, one valid row,
    a listing of length one. *)
Lemma malformed_rows_witness :
  Server.file exampleWorld = Some exampleState
  /\ Spec.wellFormed malformedRow = false
  /\ exists items,
       @Server.getLotes exampleHost exampleWorld = Server.Items items
       /\ length items = 1%nat.
Proof.
  split; [reflexivity|]. split; [reflexivity|].
  destruct (@malformed_rows_excluded exampleHost exampleWorld exampleState eq_refl)
    as (items & Hget & _ & Hlen & _).
  exists items. split; [exact Hget|]. rewrite Hlen. reflexivity.
Defined.

(** C10 on the sample data: a price of 0 leaves the lot without price. *)
Lemma price_zero_witness :
  @Server.getLotes exampleHost exampleWorld = Server.Items [exampleLote]
  /\ (exists l, l ∈ [exampleLote] /\ id l = requestedId "A-07")
  /\ p_price zeroPricePatch = JS.VNum 0
  /\ exists updated,
       fst (@Server.putLote exampleHost exampleNow "A-07" zeroPricePatch exampleWorld)
       = Server.Item (Some updated)
       /\ price exampleLote = Some 45000%Q
       /\ price updated = None
       /\ @Server.getLotes exampleHost
            (snd (@Server.putLote exampleHost exampleNow "A-07" zeroPricePatch
                    exampleWorld))
          = Server.Items [updated].
Proof.
  pose proof getLotes_exampleWorld as H1.
  pose proof (exampleLote_present "A-07" eq_refl) as H2.
  split; [exact H1|]. split; [exact H2|]. split; [reflexivity|].
  destruct (@price_zero_clears exampleHost exampleNow "A-07" zeroPricePatch
              exampleWorld [exampleLote] H1 H2 eq_refl)
    as (_ & before & old & after & updated & st' & index & row' & Hitems & _
        & Hresp & _ & Hprice & Hlist & _).
  apply singleton_split in Hitems as (-> & -> & ->).
  exists updated. split; [exact Hresp|]. split; [reflexivity|].
  split; [exact Hprice | exact Hlist].
Defined.

(** C5 on the sample data: 50 % off 45000 is 22500. *)
Lemma discount_reconciliation_witness :
  (0 <= App.precioRegular exampleDraft)%Q
  /\ (App.precioPromocional (App.onChangeDescuentoPct exampleFechaEn 50 exampleDraft)
      == 22500)%Q
  /\ (App.descuentoSoles (App.onChangeDescuentoPct exampleFechaEn 50 exampleDraft)
      == 22500)%Q.
Proof.
  assert (H0 : (0 <= App.precioRegular exampleDraft)%Q) by discriminate.
  split; [exact H0|].
  destruct (discount_reconciliation (Some App.pct) exampleFechaEn exampleDraft)
    as [_ Hhalf].
  destruct (Hhalf H0) as (Hp & Hs & _).
  split; [rewrite Hp | rewrite Hs]; reflexivity.
Defined.



(** * Further properties of the code *)

(** ** Printing and reading integers *)

Lemma digitsValue_uint_acc (d : Decimal.uint) : forall acc : positive,
  JS.digitsValue (Z.pos acc) (NilEmpty.string_of_uint d) = Z.pos (Pos.of_uint_acc d acc).
Proof.
  induction d; intros acc;
    cbn [NilEmpty.string_of_uint JS.digitsValue Pos.of_uint_acc]; try reflexivity;
    rewrite <- IHd; f_equal;
    match goal with
    | |- context [JS.digitValue ?c] =>
        let v := eval vm_compute in (JS.digitValue c) in change (JS.digitValue c) with v
    end; lia.
Qed.

Lemma digitsValue_uint (d : Decimal.uint) :
  JS.digitsValue 0 (NilEmpty.string_of_uint d) = Z.of_N (Pos.of_uint d).
Proof.
  induction d; simpl; try reflexivity; try exact IHd;
    match goal with
    | |- JS.digitsValue ?a _ = _ =>
        let v := eval vm_compute in a in change a with v
    end; apply digitsValue_uint_acc.
Qed.

Lemma to_uint_not_Nil (p : positive) : Pos.to_uint p <> Decimal.Nil.
Proof.
  intros E. pose proof (DecimalPos.Unsigned.of_to p) as Hp. rewrite E in Hp. discriminate.
Qed.

Lemma stringOfInt_pos (p : positive) :
  JS.stringOfInt (Z.pos p) = NilEmpty.string_of_uint (Pos.to_uint p).
Proof.
  unfold JS.stringOfInt. simpl. pose proof (to_uint_not_Nil p) as Hn.
  destruct (Pos.to_uint p); [congruence | reflexivity ..].
Qed.

(** A non-negative integer prints as digits only, and they read back. *)
Lemma stringOfInt_digits (n : Z) :
  (0 <= n)%Z ->
  allChars JS.isDigit (JS.stringOfInt n) = true
  /\ JS.digitsValue 0 (JS.stringOfInt n) = n.
Proof.
  intros Hn. destruct n as [|p|p]; [by split | | lia].
  rewrite stringOfInt_pos. split; [apply uint_chars|].
  rewrite digitsValue_uint, DecimalPos.Unsigned.of_to. reflexivity.
Qed.

Lemma fillTo_zeros (n : nat) (s : string) :
  allChars JS.isDigit (JS.fillTo "0" "0" n ++ s) = allChars JS.isDigit s
  /\ JS.digitsValue 0 (JS.fillTo "0" "0" n ++ s) = JS.digitsValue 0 s.
Proof.
  assert (H : forall cur, cur = "0" \/ cur = "" ->
            allChars JS.isDigit (JS.fillTo "0" cur n ++ s) = allChars JS.isDigit s
            /\ JS.digitsValue 0 (JS.fillTo "0" cur n ++ s) = JS.digitsValue 0 s).
  { induction n as [|n IH]; intros cur Hcur; [by split|].
    destruct Hcur as [->| ->]; simpl; push_app; simpl; apply IH; by right. }
  apply H. by left.
Qed.

(** The padded lot number is a digit string that reads back as the number. *)
Lemma padStart_digits (n : Z) :
  (0 <= n)%Z ->
  allChars JS.isDigit (JS.padStart (JS.stringOfInt n) 2 "0") = true
  /\ JS.digitsValue 0 (JS.padStart (JS.stringOfInt n) 2 "0") = n.
Proof.
  intros Hn. destruct (stringOfInt_digits n Hn) as [Hc Hv].
  unfold JS.padStart. destruct (Nat.leb 2 _); [by split|].
  destruct (fillTo_zeros (2 - String.length (JS.stringOfInt n)) (JS.stringOfInt n))
    as [-> ->]. by split.
Qed.

Lemma split_at_last_dash (a b s t : string) :
  allChars JS.isDigit s = true -> allChars JS.isDigit t = true ->
  a ++ String "-" s = b ++ String "-" t -> a = b /\ s = t.
Proof.
  intros Hs Ht.
  assert (Hno : forall x y u, allChars JS.isDigit u = true -> u <> x ++ String "-" y).
  { intros x y u Hu ->. rewrite allChars_app in Hu. simpl in Hu.
    rewrite andb_false_r in Hu. discriminate. }
  revert b. induction a as [|c a IH]; intros [|c' b]; push_app.
  - intros [= ->]. by split.
  - intros [= <- E]. by destruct (Hno b t s Hs).
  - intros [= -> E]. symmetry in E. by destruct (Hno a s t Ht).
  - intros [= -> E]. destruct (IH b E) as [-> ->]. by split.
Qed.

(** X1. Distinct lots get distinct ids: on non-negative lot numbers
    [toLoteId] is injective, whatever the block name contains. *)
Theorem toLoteId_injective (m1 m2 : string) (n1 n2 : Z) :
  (0 <= n1)%Z -> (0 <= n2)%Z ->
  Server.toLoteId m1 n1 = Server.toLoteId m2 n2 ->
  m1 = m2 /\ n1 = n2.
Proof.
  intros H1 H2. unfold Server.toLoteId.
  destruct (padStart_digits n1 H1) as [Hc1 Hv1].
  destruct (padStart_digits n2 H2) as [Hc2 Hv2].
  change ("-" ++ ?x) with (String "-" x). intros E.
  destruct (split_at_last_dash _ _ _ _ Hc1 Hc2 E) as [-> Hpad].
  split; [reflexivity|]. rewrite <- Hv1, <- Hv2, Hpad. reflexivity.
Qed.

Lemma toLoteId_injective_witness :
  (0 <= 7)%Z /\ (0 <= 7)%Z
  /\ Server.toLoteId "A" 7 = Server.toLoteId (JS.toUpperCase "a") (3 + 4)
  /\ "A" = JS.toUpperCase "a" /\ 7%Z = (3 + 4)%Z.
Proof.
  assert (H0 : (0 <= 7)%Z) by discriminate.
  assert (H1 : (0 <= 3 + 4)%Z) by discriminate.
  split; [exact H0|]. split; [exact H0|]. split; [reflexivity|].
  exact (toLoteId_injective "A" (JS.toUpperCase "a") 7 (3 + 4) H0 H1 eq_refl).
Defined.

(** With negative lot numbers two different pairs can share an id. *)
Example toLoteId_negative_collision :
  Server.toLoteId "A" (-15) = Server.toLoteId "A-" 15.
Proof. reflexivity. Qed.

(** ** Header columns *)

Lemma ensure_fold_spec (req acc : list string) :
  exists added,
    fold_left (fun next column =>
                 if bool_decide (column ∈ next) then next else (next ++ [column])%list)
              req acc = (acc ++ added)%list
    /\ NoDup added
    /\ (forall c, c ∈ added -> c ∈ req /\ c ∉ acc).
Proof.
  revert acc. induction req as [|r req IH]; intros acc; simpl.
  - exists []. rewrite app_nil_r. split; [reflexivity|]. split; [constructor|].
    intros c Hc. by apply elem_of_nil in Hc.
  - case_bool_decide as Hr.
    + destruct (IH acc) as (added & -> & Hnd & Hin). exists added.
      split; [reflexivity|]. split; [exact Hnd|].
      intros c Hc. destruct (Hin c Hc). split; [by apply elem_of_cons; right | done].
    + destruct (IH (acc ++ [r])%list) as (added & -> & Hnd & Hin). exists (r :: added).
      split; [by rewrite <- app_assoc|]. split.
      * constructor; [|exact Hnd]. intros Hc. destruct (Hin r Hc) as [_ Hn].
        apply Hn, elem_of_app. right. apply elem_of_cons. by left.
      * intros c [->|Hc]%elem_of_cons.
        -- split; [apply elem_of_cons; by left | exact Hr].
        -- destruct (Hin c Hc) as [Hreq Hn]. split; [by apply elem_of_cons; right|].
           intros Hacc. apply Hn, elem_of_app. by left.
Qed.

Lemma ensure_fold_fixed (req acc : list string) :
  (forall c, c ∈ req -> c ∈ acc) ->
  fold_left (fun next column =>
               if bool_decide (column ∈ next) then next else (next ++ [column])%list)
            req acc = acc.
Proof.
  revert acc. induction req as [|r req IH]; intros acc Hall; simpl; [reflexivity|].
  rewrite bool_decide_eq_true_2 by (apply Hall, elem_of_cons; by left).
  apply IH. intros c Hc. apply Hall, elem_of_cons. by right.
Qed.

(** X2. [ensureColumns] keeps the header it is given, in order, and
    appends exactly the required columns that are missing, each once;
    it adds nothing to a complete header, is idempotent and brings no
    duplicate into a header that has none. *)
Theorem ensureColumns_spec (fields : list string) :
  (exists added,
     Server.ensureColumns fields = (fields ++ added)%list
     /\ NoDup added
     /\ (forall c, c ∈ added <-> c ∈ Server.REQUIRED_COLUMNS /\ c ∉ fields))
  /\ Server.ensureColumns (Server.ensureColumns fields) = Server.ensureColumns fields
  /\ (NoDup fields -> NoDup (Server.ensureColumns fields))
  /\ ((forall c, c ∈ Server.REQUIRED_COLUMNS -> c ∈ fields) ->
      Server.ensureColumns fields = fields).
Proof.
  destruct (ensure_fold_spec Server.REQUIRED_COLUMNS fields) as (added & E & Hnd & Hin).
  fold (Server.ensureColumns fields) in E.
  split; [|split; [|split]].
  - exists added. split; [exact E|]. split; [exact Hnd|].
    intros c. split; [apply Hin|]. intros [Hreq Hn].
    pose proof (ensureColumns_required fields c Hreq) as Hc.
    rewrite E in Hc. apply elem_of_app in Hc as [Hc|Hc]; [done | exact Hc].
  - apply ensure_fold_fixed. intros c. apply ensureColumns_required.
  - intros Hf. rewrite E. apply NoDup_app. split; [exact Hf|].
    split; [|exact Hnd]. intros c Hc Hadd. by destruct (Hin c Hadd).
  - apply ensure_fold_fixed.
Qed.

(** ** The number cleaners side by side *)

(** X3. On a cell whose digits hold no comma the three number cleaners
    (CSV server, seed script, database adapter) give the same answer;
    they can only differ through a comma (see C6). *)
Theorem cleanNumber_paths_agree `{Host} (s : string) :
  allChars notComma (Server.stripNonNumeric s) = true ->
  Seed.cleanNumber (JS.VStr s) = Server.cleanNumber (JS.VStr s)
  /\ LotesService.cleanNumber (JS.VStr s) = Server.cleanNumber (JS.VStr s)
  /\ App.cleanNumber (Some s) = Server.cleanNumber (JS.VStr s).
Proof.
  intros Hc. destruct s as [|c r]; [by repeat split|].
  unfold Seed.cleanNumber, LotesService.cleanNumber, App.cleanNumber, Server.cleanNumber.
  cbn [Server.falsy Server.toString].
  rewrite !(replaceFirstComma_miss _ _ Hc). by repeat split.
Qed.

Lemma cleanNumber_paths_agree_witness :
  allChars notComma (Server.stripNonNumeric "S/ 45000.50") = true
  /\ @Seed.cleanNumber exampleHost (JS.VStr "S/ 45000.50") = Some (90001 # 2)%Q
  /\ @Server.cleanNumber exampleHost (JS.VStr "S/ 45000.50") = Some (90001 # 2)%Q.
Proof.
  assert (H0 : allChars notComma (Server.stripNonNumeric "S/ 45000.50") = true)
    by reflexivity.
  split; [exact H0|].
  destruct (@cleanNumber_paths_agree exampleHost "S/ 45000.50" H0) as (Hs & _ & _).
  split; [rewrite Hs|]; reflexivity.
Defined.

(** ** Status normalisation across the code *)

Lemma normalizeStatus_via (s : string) :
  Server.normalizeStatus (Some s)
  = (let n := JS.toUpperCase (JS.trim s) in
     if bool_decide (n ∈ Server.ALLOWED_STATUS) then n else "LIBRE").
Proof.
  destruct s as [|c r]; [reflexivity|]. reflexivity.
Qed.

(** X4. The status normaliser is idempotent and blind to case and to
    outer white space; on what it returns, the seller panel's own
    normaliser is the identity and the map's label and style class are
    DISPONIBLE / libre for LIBRE and the status itself otherwise. *)
Theorem normalizeStatus_stable (x : option string) (s : string) :
  Server.normalizeStatus (Some (Server.normalizeStatus x)) = Server.normalizeStatus x
  /\ Server.normalizeStatus (Some (JS.toUpperCase s)) = Server.normalizeStatus (Some s)
  /\ Server.normalizeStatus (Some (JS.trim s)) = Server.normalizeStatus (Some s)
  /\ Panel.normalizeStatus (Some (Server.normalizeStatus x)) = Server.normalizeStatus x
  /\ App.normalizeStatusLabel (Some (Server.normalizeStatus x))
     = (if String.eqb (Server.normalizeStatus x) "LIBRE" then "DISPONIBLE"
        else Server.normalizeStatus x)
  /\ JS.toUpperCase (App.statusToClass (Some (Server.normalizeStatus x)))
     = Server.normalizeStatus x.
Proof.
  split; [apply normalizeStatus_idem|].
  split; [|split].
  - rewrite !normalizeStatus_via. cbv zeta.
    rewrite trim_toUpperCase, toUpperCase_idem. reflexivity.
  - rewrite !normalizeStatus_via. cbv zeta. rewrite trim_idem. reflexivity.
  - destruct (normalizeStatus_cases x) as [E|[E|E]]; rewrite E; repeat split; reflexivity.
Qed.

(** ** A price written to the file and read back *)







Lemma stringOfInt_short (k : Z) :
  (0 <= k < 100)%Z -> (String.length (JS.stringOfInt k) <= 2)%nat.
Proof.
  intros Hk. rewrite <- (Z2Nat.id k) by lia.
  assert (Hm : (Z.to_nat k < 100)%nat) by lia.
  revert Hm. generalize (Z.to_nat k) as m. intros m Hm.
  do 100 (destruct m as [|m]; [vm_compute; lia|]). lia.
Qed.







(** ** What an update never does *)
Section UpdateMore.
Context `{Host}.

Lemma putLote_unreadable now id_ payload (w : Server.World) :
  Server.file w = None ->
  Server.getLotes w = Server.Status500
  /\ Server.putLote now id_ payload w = (Server.Status500, w).
Proof.
  intros Hfile. unfold Server.getLotes, Server.putLote, Server.readCsvState.
  rewrite Hfile. by split.
Qed.

Lemma putLote_no_match now id_ payload (w : Server.World) (st : Server.CsvState) :
  Server.file w = Some st ->
  Server.findIndex (Server.matchesId (requestedId id_)) (Server.rows st) = None ->
  Server.putLote now id_ payload w = (Server.Status404, w).
Proof.
  intros Hfile Hnone. unfold Server.putLote, Server.readCsvState. rewrite Hfile. simpl.
  fold (Server.normalizeText (Some id_)).
  change (JS.toUpperCase (Server.normalizeText (Some id_))) with (requestedId id_).
  rewrite Hnone. reflexivity.
Qed.

(** X6. [PUT] never creates, deletes, renames or moves a lot: whatever
    the request, the listing afterwards has the same ids, blocks, lot
    numbers and areas in the same order; the answer is 404 or the
    updated lot, which is then in the listing.  When the file cannot be
    read both routes answer 500 and nothing is written. *)
Theorem putLote_keeps_lots now id_ payload (w : Server.World) :
  (Server.file w = None ->
   Server.getLotes w = Server.Status500
   /\ Server.putLote now id_ payload w = (Server.Status500, w))
  /\ (forall items, Server.getLotes w = Server.Items items ->
      exists items',
        Server.getLotes (snd (Server.putLote now id_ payload w)) = Server.Items items'
        /\ id <$> items' = id <$> items
        /\ mz <$> items' = mz <$> items
        /\ lote <$> items' = lote <$> items
        /\ areaM2 <$> items' = areaM2 <$> items
        /\ (fst (Server.putLote now id_ payload w) = Server.Status404
            \/ exists item,
                 fst (Server.putLote now id_ payload w) = Server.Item (Some item)
                 /\ item ∈ items')).
Proof.
  split; [apply putLote_unreadable|].
  intros items Hget. destruct (getLotes_Items _ _ Hget) as (st & Hfile & Hitems).
  destruct (Server.findIndex (Server.matchesId (requestedId id_)) (Server.rows st))
    as [index|] eqn:Hfind.
  - assert (Hpresent : exists l, l ∈ items /\ id l = requestedId id_).
    { destruct (findIndex_Some _ _ _ Hfind) as (row0 & Hrow0 & Hmatch & _).
      apply matchesId_spec in Hmatch as (old & Hold & Hid).
      exists old. split; [|exact Hid]. rewrite Hitems. apply list_elem_of_omap.
      exists row0. split; [eapply list_elem_of_lookup_2, Hrow0 | exact Hold]. }
    destruct (putLote_found now id_ payload w items Hget Hpresent)
      as (before & old & after & -> & _ & _ & Hresp & Hlist & _).
    exists (before ++ Spec.updatedLote now payload old :: after)%list.
    split; [exact Hlist|]. rewrite !fmap_app, !fmap_cons. simpl.
    repeat split. right. eexists. split; [exact Hresp|].
    apply elem_of_app. right. apply elem_of_cons. by left.
  - rewrite (putLote_no_match now id_ payload w st Hfile Hfind). simpl.
    exists items. split; [exact Hget|]. repeat split. by left.
Qed.

Lemma first_split_unique {A} (P : A -> Prop) (b1 b2 a1 a2 : list A) (x1 x2 : A) :
  (b1 ++ x1 :: a1)%list = (b2 ++ x2 :: a2)%list ->
  (forall y, y ∈ b1 -> ~ P y) -> P x1 ->
  (forall y, y ∈ b2 -> ~ P y) -> P x2 ->
  b1 = b2 /\ x1 = x2 /\ a1 = a2.
Proof.
  revert b2. induction b1 as [|y b1 IH]; intros [|z b2]; simpl; intros E H1 Hx1 H2 Hx2.
  - injection E as -> ->. by repeat split.
  - injection E as -> _. exfalso. apply (H2 z); [apply elem_of_cons; by left | exact Hx1].
  - injection E as -> _. exfalso. apply (H1 x2); [apply elem_of_cons; by left | exact Hx2].
  - injection E as -> E. destruct (IH b2 E) as (-> & -> & ->); try assumption.
    + intros u Hu. apply H1, elem_of_cons. by right.
    + intros u Hu. apply H2, elem_of_cons. by right.
    + by repeat split.
Qed.

Lemma updatedLote_idem now payload (old : Lote) :
  Spec.updatedLote now payload (Spec.updatedLote now payload old)
  = Spec.updatedLote now payload old.
Proof.
  unfold Spec.updatedLote, Spec.patchedText. simpl.
  destruct (p_price payload), (p_estado payload), (p_asesor payload),
    (p_cliente payload), (p_comentario payload); reflexivity.
Qed.

(** X7. Two updates of one lot compose: the second patches the lot the
    first one left, at the same place in the listing, and two writes go
    to the file; repeating an update within the same second changes
    nothing further. *)
Theorem putLote_twice now1 now2 id_ p1 p2 (w : Server.World) (items : list Lote) :
  Server.getLotes w = Server.Items items ->
  (exists l, l ∈ items /\ id l = requestedId id_) ->
  exists before old after,
    items = (before ++ old :: after)%list
    /\ id old = requestedId id_
    /\ (forall l, l ∈ before -> id l <> requestedId id_)
    /\ fst (Server.putLote now2 id_ p2 (snd (Server.putLote now1 id_ p1 w)))
       = Server.Item (Some (Spec.updatedLote now2 p2 (Spec.updatedLote now1 p1 old)))
    /\ Server.getLotes (snd (Server.putLote now2 id_ p2 (snd (Server.putLote now1 id_ p1 w))))
       = Server.Items
           (before ++ Spec.updatedLote now2 p2 (Spec.updatedLote now1 p1 old) :: after)%list
    /\ Server.writes (snd (Server.putLote now2 id_ p2 (snd (Server.putLote now1 id_ p1 w))))
       = S (S (Server.writes w))
    /\ Server.getLotes (snd (Server.putLote now1 id_ p1 (snd (Server.putLote now1 id_ p1 w))))
       = Server.getLotes (snd (Server.putLote now1 id_ p1 w)).
Proof.
  intros Hget Hpresent.
  destruct (putLote_found now1 id_ p1 w items Hget Hpresent)
    as (before & old & after & Hitems & Hid & Hbefore & _ & Hlist1 & Hw1).
  set (w1 := snd (Server.putLote now1 id_ p1 w)) in *.
  assert (Hpresent1 : exists l, l ∈ (before ++ Spec.updatedLote now1 p1 old :: after)%list
                                /\ id l = requestedId id_).
  { eexists. split; [apply elem_of_app; right; apply elem_of_cons; by left | exact Hid]. }
  assert (Hsecond : forall now p,
    fst (Server.putLote now id_ p w1)
    = Server.Item (Some (Spec.updatedLote now p (Spec.updatedLote now1 p1 old)))
    /\ Server.getLotes (snd (Server.putLote now id_ p w1))
       = Server.Items
           (before ++ Spec.updatedLote now p (Spec.updatedLote now1 p1 old) :: after)%list
    /\ Server.writes (snd (Server.putLote now id_ p w1)) = S (S (Server.writes w))).
  { intros now p.
    destruct (putLote_found now id_ p w1 _ Hlist1 Hpresent1)
      as (b' & o' & a' & Hsplit & Hid' & Hb' & Hresp & Hlist & Hw).
    destruct (first_split_unique (fun l => id l = requestedId id_) _ _ _ _ _ _ Hsplit)
      as (<- & <- & <-); try assumption.
    rewrite Hw, Hw1. by repeat split. }
  exists before, old, after.
  destruct (Hsecond now2 p2) as (Hr2 & Hl2 & Hw2).
  destruct (Hsecond now1 p1) as (_ & Hl1 & _).
  repeat split; try assumption.
  rewrite Hl1, Hlist1, updatedLote_idem. reflexivity.
Qed.

Lemma orUndefined_shape (s t : string) :
  Server.orUndefined (JS.trim s) = Some t -> t <> "" /\ JS.trim t = t.
Proof.
  unfold Server.orUndefined. destruct (JS.trim s) as [|c r] eqn:E; [discriminate|].
  intros [= <-]. split; [discriminate|]. rewrite <- E. apply trim_idem.
Qed.

(** X8. Every lot in a listing is well formed: its status is LIBRE,
    SEPARADO or VENDIDO, its block name is non-empty, trimmed and in
    upper case, its id is the block name, a dash and the padded lot
    number, and a free-text member that is present is non-empty and
    trimmed. *)
Theorem served_lot_shape (w : Server.World) (items : list Lote) (l : Lote) :
  Server.getLotes w = Server.Items items ->
  l ∈ items ->
  condicion l ∈ Server.ALLOWED_STATUS
  /\ mz l <> ""
  /\ JS.toUpperCase (mz l) = mz l
  /\ JS.trim (mz l) = mz l
  /\ id l = mz l ++ "-" ++ JS.padStart (JS.stringOfInt (lote l)) 2 "0"
  /\ (forall s, asesor l = Some s -> s <> "" /\ JS.trim s = s)
  /\ (forall s, cliente l = Some s -> s <> "" /\ JS.trim s = s)
  /\ (forall s, comentario l = Some s -> s <> "" /\ JS.trim s = s)
  /\ (forall s, ultimaModificacion l = Some s -> s <> "" /\ JS.trim s = s).
Proof.
  intros Hget Hl. destruct (getLotes_Items _ _ Hget) as (st & _ & ->).
  apply list_elem_of_omap in Hl as (row & _ & Hrow).
  unfold Server.mapRowToLote, Server.normalizeText in Hrow.
  destruct (JS.toUpperCase (JS.trim (default "" (row !! "MZ")))) as [|c r] eqn:Emz;
    [discriminate|].
  destruct (JS.parseInt _) as [n|]; [|discriminate].
  injection Hrow as <-.
  cbn [id mz lote condicion asesor cliente comentario ultimaModificacion].
  rewrite <- Emz.
  split.
  { unfold Server.ALLOWED_STATUS. rewrite !elem_of_cons.
    destruct (normalizeStatus_cases (row !! "CONDICION")) as [E|[E|E]]; rewrite E; tauto. }
  split; [rewrite Emz; discriminate|].
  split; [apply toUpperCase_idem|].
  split; [rewrite trim_toUpperCase, trim_idem; reflexivity|].
  split; [reflexivity|].
  split; [|split; [|split]]; intros t Ht; eapply orUndefined_shape; exact Ht.
Qed.

End UpdateMore.

Lemma putLote_twice_witness :
  @Server.getLotes exampleHost exampleWorld = Server.Items [exampleLote]
  /\ (exists l, l ∈ [exampleLote] /\ id l = requestedId "A-07")
  /\ exists item,
       fst (@Server.putLote exampleHost exampleNow "A-07" zeroPricePatch
              (snd (@Server.putLote exampleHost exampleNow "A-07" examplePatch
                      exampleWorld)))
       = Server.Item (Some item)
       /\ condicion item = "SEPARADO" /\ price item = None.
Proof.
  pose proof getLotes_exampleWorld as H1.
  pose proof (exampleLote_present "A-07" eq_refl) as H2.
  split; [exact H1|]. split; [exact H2|].
  destruct (@putLote_twice exampleHost exampleNow exampleNow "A-07" examplePatch
              zeroPricePatch exampleWorld [exampleLote] H1 H2)
    as (before & old & after & Hitems & _ & _ & Hresp & _).
  apply singleton_split in Hitems as (-> & -> & ->).
  eexists. split; [exact Hresp|]. split; reflexivity.
Defined.

Lemma served_lot_shape_witness :
  @Server.getLotes exampleHost exampleWorld = Server.Items [exampleLote]
  /\ exampleLote ∈ [exampleLote]
  /\ condicion exampleLote ∈ Server.ALLOWED_STATUS
  /\ JS.trim (mz exampleLote) = mz exampleLote.
Proof.
  pose proof getLotes_exampleWorld as H1.
  assert (H2 : exampleLote ∈ [exampleLote]) by (apply elem_of_cons; by left).
  split; [exact H1|]. split; [exact H2|].
  destruct (@served_lot_shape exampleHost exampleWorld [exampleLote] exampleLote H1 H2)
    as (Hc & _ & _ & Ht & _).
  split; [exact Hc | exact Ht].
Defined.

(** ** The manual quote *)



(** ** More of [recalcProforma] *)

Lemma recalcProforma_fields edited fechaEn draft :
  let r := App.recalcProforma edited fechaEn draft in
  App.precioRegular r = JS.Math_max (App.precioRegular draft) 0
  /\ App.diasVigencia r
     = App.clamp (inject_Z (JS.Math_round (App.orZero (App.diasVigencia draft)))) 1 30
  /\ App.meses r = App.clamp (inject_Z (JS.Math_round (App.orOne (App.meses draft)))) 1 36
  /\ App.separacion r = JS.Math_max (App.separacion draft) 0
  /\ App.inicial r = JS.Math_max (App.orZero (App.inicial draft)) 6000
  /\ App.fechaCaducidad r = fechaEn (App.diasVigencia r)
  /\ App.pf_cliente r = App.pf_cliente draft
  /\ App.pf_lote r = App.pf_lote draft
  /\ App.pf_vendedor r = App.pf_vendedor draft
  /\ App.creadoEn r = App.creadoEn draft.
Proof. destruct edited as [[| |]|]; repeat split; reflexivity. Qed.

(** A clamped integer is an integer within the bounds. *)
Lemma clamp_integer (k lo hi : Z) :
  (lo <= hi)%Z ->
  exists z, (lo <= z <= hi)%Z
            /\ (App.clamp (inject_Z k) (inject_Z lo) (inject_Z hi) == inject_Z z)%Q.
Proof.
  intros Hle. exists (Z.min (Z.max k lo) hi). split; [lia|].
  unfold App.clamp, JS.Math_min, JS.Math_max.
  assert (Hmax : (Qmax (inject_Z k) (inject_Z lo) == inject_Z (Z.max k lo))%Q).
  { destruct (Z.max_spec k lo) as [[Hlt ->]|[Hge ->]].
    - apply Q.max_r. rewrite <- Zle_Qle. lia.
    - apply Q.max_l. rewrite <- Zle_Qle. lia. }
  destruct (Z.min_spec (Z.max k lo) hi) as [[Hlt ->]|[Hge ->]].
  - rewrite <- Hmax. apply Q.min_l. rewrite Hmax, <- Zle_Qle. lia.
  - apply Q.min_r. rewrite Hmax, <- Zle_Qle. lia.
Qed.

Lemma recalcProforma_ranges (edited : option App.PriceField) (fechaEn : Q -> string)
    (draft : App.ProformaState) :
  let r := App.recalcProforma edited fechaEn draft in
  (exists z, (1 <= z <= 30)%Z /\ (App.diasVigencia r == inject_Z z)%Q)
  /\ (exists z, (1 <= z <= 36)%Z /\ (App.meses r == inject_Z z)%Q)
  /\ (0 <= App.separacion r)%Q
  /\ (6000 <= App.inicial r)%Q.
Proof.
  intros r.
  destruct (recalcProforma_fields edited fechaEn draft)
    as (_ & Hdias & Hmeses & Hsep & Hini & _).
  fold r in Hdias, Hmeses, Hsep, Hini.
  destruct (clamp_integer (JS.Math_round (App.orZero (App.diasVigencia draft))) 1 30)
    as (zd & Hzd & Ed); [lia|].
  destruct (clamp_integer (JS.Math_round (App.orOne (App.meses draft))) 1 36)
    as (zm & Hzm & Em); [lia|].
  change (inject_Z 1) with 1%Q in Ed, Em. change (inject_Z 30) with 30%Q in Ed.
  change (inject_Z 36) with 36%Q in Em. rewrite <- Hdias in Ed. rewrite <- Hmeses in Em.
  split; [exists zd; by split|]. split; [exists zm; by split|].
  split; [rewrite Hsep; apply Math_max_nonneg | rewrite Hini; apply Q.le_max_r].
Qed.


Lemma truthyNum_compat (a b : Q) : (a == b)%Q -> JS.truthyNum a = JS.truthyNum b.
Proof.
  intros E. unfold JS.truthyNum. f_equal.
  destruct (Qeq_bool a 0) eqn:Ea, (Qeq_bool b 0) eqn:Eb; try reflexivity.
  - apply Qeq_bool_eq in Ea. rewrite E in Ea. apply Qeq_eq_bool in Ea. congruence.
  - apply Qeq_bool_eq in Eb. rewrite <- E in Eb. apply Qeq_eq_bool in Eb. congruence.
Qed.

Lemma ratio_compat (x y a b : Q) :
  (x == y)%Q -> (a == b)%Q ->
  ((if JS.truthyNum a then x / a * 100 else 0)
   == (if JS.truthyNum b then y / b * 100 else 0))%Q.
Proof.
  intros Ex Ea. rewrite (truthyNum_compat a b Ea).
  destruct (JS.truthyNum b); [rewrite Ex, Ea|]; reflexivity.
Qed.

Lemma Math_round_integer (z : Z) (x : Q) : (x == inject_Z z)%Q -> JS.Math_round x = z.
Proof.
  intros E. unfold JS.Math_round.
  pose proof (Qfloor_le (x + (1 # 2))) as Hlo.
  pose proof (Qlt_floor (x + (1 # 2))) as Hhi.
  set (f := Qfloor (x + (1 # 2))) in *. rewrite E in Hlo, Hhi.
  rewrite inject_Z_plus in Hhi. change (inject_Z 1) with 1%Q in Hhi.
  destruct (Z_lt_le_dec z f) as [Hlt|Hle].
  - exfalso. assert (Hz : (z + 1 <= f)%Z) by lia.
    rewrite Zle_Qle, inject_Z_plus in Hz. change (inject_Z 1) with 1%Q in Hz. lra.
  - destruct (Z_lt_le_dec f z) as [Hlt|Hge]; [|lia].
    exfalso. assert (Hz : (f + 1 <= z)%Z) by lia.
    rewrite Zle_Qle, inject_Z_plus in Hz. change (inject_Z 1) with 1%Q in Hz. lra.
Qed.

Lemma orOne_eq (x : Q) : ~ (x == 0)%Q -> App.orOne x = x.
Proof.
  intros Hx. unfold App.orOne, JS.truthyNum.
  destruct (Qeq_bool x 0) eqn:E; [|reflexivity]. apply Qeq_bool_eq in E. contradiction.
Qed.

Lemma recalcProforma_priceLink edited fechaEn draft :
  priceLink edited (App.recalcProforma edited fechaEn draft).
Proof. destruct edited as [[| |]|]; simpl; reflexivity. Qed.

(** A state with the relations of a recomputed proforma is left alone. *)
Lemma recalcProforma_fixed edited fechaEn (s : App.ProformaState) (zd zm : Z) :
  reconciled s -> priceLink edited s ->
  (1 <= zd <= 30)%Z -> (App.diasVigencia s == inject_Z zd)%Q ->
  (1 <= zm <= 36)%Z -> (App.meses s == inject_Z zm)%Q ->
  (0 <= App.separacion s)%Q -> (6000 <= App.inicial s)%Q ->
  sameNumbers (App.recalcProforma edited fechaEn s) s.
Proof.
  intros ((Hd0 & Hd1) & (Hp0 & Hp1) & Hpromo & Hq0 & Hq1) Hlink Hzd Ed Hzm Em Hsep Hini.
  destruct (recalcProforma_fields edited fechaEn s)
    as (Hreg & Hdias & Hmeses & Hsep' & Hini' & _).
  assert (Hreg0 : (0 <= App.precioRegular s)%Q) by lra.
  assert (Ereg : (JS.Math_max (App.precioRegular s) 0 == App.precioRegular s)%Q)
    by (apply Math_max_id, Hreg0).
  assert (Edias : (App.diasVigencia (App.recalcProforma edited fechaEn s)
                   == App.diasVigencia s)%Q).
  { rewrite Hdias, (Math_round_integer zd) by (rewrite orZero_eq; exact Ed).
    rewrite Ed. apply clamp_inside.
    - change 1%Q with (inject_Z 1). rewrite <- Zle_Qle. lia.
    - change 30%Q with (inject_Z 30). rewrite <- Zle_Qle. lia. }
  assert (Hm1 : (1 <= App.meses s)%Q).
  { rewrite Em. change 1%Q with (inject_Z 1). rewrite <- Zle_Qle. lia. }
  assert (Emeses : (App.meses (App.recalcProforma edited fechaEn s) == App.meses s)%Q).
  { rewrite Hmeses, orOne_eq by lra. rewrite (Math_round_integer zm _ Em).
    rewrite Em. apply clamp_inside.
    - change 1%Q with (inject_Z 1). rewrite <- Zle_Qle. lia.
    - change 36%Q with (inject_Z 36). rewrite <- Zle_Qle. lia. }
  assert (Esep : (App.separacion (App.recalcProforma edited fechaEn s)
                  == App.separacion s)%Q)
    by (rewrite Hsep'; apply Math_max_id, Hsep).
  assert (Eini : (App.inicial (App.recalcProforma edited fechaEn s) == App.inicial s)%Q).
  { rewrite Hini'. unfold JS.Math_max. rewrite (Q.max_l _ 6000) by (rewrite orZero_eq; lra).
    apply orZero_eq. }
  assert (Hclamp : forall v hi, (0 <= v)%Q -> (v <= hi)%Q ->
            (App.clamp (JS.Math_max v 0) 0 (JS.Math_max hi 0) == v)%Q).
  { intros v hi Hv Hhi. rewrite clamp_inside.
    - by apply Math_max_id.
    - apply Math_max_nonneg.
    - rewrite !Math_max_id by lra. exact Hhi. }
  unfold sameNumbers. rewrite Hreg.
  split; [exact Ereg|].
  assert (Hrest :
    (App.precioPromocional (App.recalcProforma edited fechaEn s)
     == App.precioPromocional s)%Q
    /\ (App.descuentoSoles (App.recalcProforma edited fechaEn s)
        == App.descuentoSoles s)%Q
    /\ (App.descuentoPct (App.recalcProforma edited fechaEn s) == App.descuentoPct s)%Q).
  { destruct edited as [[| |]|]; cbn [priceLink] in Hlink.
    - (* soles *)
      pose proof (Hclamp _ _ Hd0 Hd1) as Eds.
      set (ds := App.clamp (JS.Math_max (App.descuentoSoles s) 0) 0
                   (JS.Math_max (App.precioRegular s) 0)) in *.
      change ((JS.Math_max (JS.Math_max (App.precioRegular s) 0 - ds) 0
               == App.precioPromocional s)%Q
              /\ (ds == App.descuentoSoles s)%Q
              /\ ((if JS.truthyNum (JS.Math_max (App.precioRegular s) 0)
                   then ds / JS.Math_max (App.precioRegular s) 0 * 100 else 0)
                  == App.descuentoPct s)%Q).
      split; [rewrite Math_max_id by lra; lra|]. split; [exact Eds|].
      rewrite Hlink. by apply ratio_compat.
    - (* pct *)
      assert (H100 : (100 <= 100)%Q) by lra.
      assert (Edp : (App.clamp (JS.Math_max (App.descuentoPct s) 0) 0 100
                     == App.descuentoPct s)%Q).
      { rewrite clamp_inside; [by apply Math_max_id | apply Math_max_nonneg |].
        rewrite Math_max_id by lra. exact Hp1. }
      set (dp := App.clamp (JS.Math_max (App.descuentoPct s) 0) 0 100) in *.
      change ((JS.Math_max (JS.Math_max (App.precioRegular s) 0
                            - dp / 100 * JS.Math_max (App.precioRegular s) 0) 0
               == App.precioPromocional s)%Q
              /\ (dp / 100 * JS.Math_max (App.precioRegular s) 0
                  == App.descuentoSoles s)%Q
              /\ (dp == App.descuentoPct s)%Q).
      assert (Eds : (dp / 100 * JS.Math_max (App.precioRegular s) 0
                     == App.descuentoSoles s)%Q) by (rewrite Edp, Ereg, Hlink; reflexivity).
      split; [rewrite Eds, Math_max_id by lra; lra|]. split; [exact Eds | exact Edp].
    - (* promo *)
      pose proof (Hclamp _ _ Hq0 Hq1) as Epr.
      set (pr := App.clamp (JS.Math_max (App.precioPromocional s) 0) 0
                   (JS.Math_max (App.precioRegular s) 0)) in *.
      change ((pr == App.precioPromocional s)%Q
              /\ (JS.Math_max (JS.Math_max (App.precioRegular s) 0 - pr) 0
                  == App.descuentoSoles s)%Q
              /\ ((if JS.truthyNum (JS.Math_max (App.precioRegular s) 0)
                   then JS.Math_max (JS.Math_max (App.precioRegular s) 0 - pr) 0
                        / JS.Math_max (App.precioRegular s) 0 * 100 else 0)
                  == App.descuentoPct s)%Q).
      assert (Eds : (JS.Math_max (JS.Math_max (App.precioRegular s) 0 - pr) 0
                     == App.descuentoSoles s)%Q) by (rewrite Math_max_id by lra; lra).
      split; [exact Epr|]. split; [exact Eds|]. rewrite Hlink. by apply ratio_compat.
    - (* nothing edited *)
      pose proof (Hclamp _ _ Hq0 Hq1) as Epr.
      set (pr := App.clamp (JS.Math_max (App.precioPromocional s) 0) 0
                   (JS.Math_max (App.precioRegular s) 0)) in *.
      change ((pr == App.precioPromocional s)%Q
              /\ (JS.Math_max (JS.Math_max (App.precioRegular s) 0 - pr) 0
                  == App.descuentoSoles s)%Q
              /\ ((if JS.truthyNum (JS.Math_max (App.precioRegular s) 0)
                   then JS.Math_max (JS.Math_max (App.precioRegular s) 0 - pr) 0
                        / JS.Math_max (App.precioRegular s) 0 * 100 else 0)
                  == App.descuentoPct s)%Q).
      assert (Eds : (JS.Math_max (JS.Math_max (App.precioRegular s) 0 - pr) 0
                     == App.descuentoSoles s)%Q) by (rewrite Math_max_id by lra; lra).
      split; [exact Epr|]. split; [exact Eds|]. rewrite Hlink. by apply ratio_compat. }
  destruct Hrest as (E1 & E2 & E3). repeat split; assumption.
Qed.

(** X11. Recomputing is stable: applying [recalcProforma] again in the
    same editing mode to its own result changes none of the numbers, so
    an edit of a text field (which goes through the same recompute)
    cannot move a price, a discount, the validity, the term, the
    reservation or the down payment. *)
Theorem recalcProforma_idempotent (edited : option App.PriceField)
    (fechaEn1 fechaEn2 : Q -> string) (draft : App.ProformaState) :
  sameNumbers
    (App.recalcProforma edited fechaEn2 (App.recalcProforma edited fechaEn1 draft))
    (App.recalcProforma edited fechaEn1 draft).
Proof.
  destruct (recalcProforma_ranges edited fechaEn1 draft)
    as ((zd & Hzd & Ed) & (zm & Hzm & Em) & Hsep & Hini).
  eapply recalcProforma_fixed; eauto.
  - apply recalcProforma_reconciled.
  - apply recalcProforma_priceLink.
Qed.

(** ** Opening a proforma on a lot *)

(** X12. A proforma opened on a lot starts without discount: regular
    and promotional price are the lot's price (0 when it has none),
    both discounts are 0, validity 3 days, 24 months, no reservation.
    Its down payment is 6000 when the price is 0 or at least 6000 and
    the price itself otherwise, so it can start below the floor; for a
    price that is not negative the first recompute changes nothing but
    that down payment, which it raises to 6000. *)
Theorem refreshProformaFromLote_state `{Host} (fechaEn : Q -> string)
    (locationText creado : string) (vendedor : App.Vendedor) (l : Lote) :
  let r := App.refreshProformaFromLote fechaEn locationText creado vendedor l in
  let p := default 0%Q (price l) in
  App.precioRegular r = p
  /\ App.precioPromocional r = p
  /\ (App.descuentoSoles r == 0)%Q
  /\ (App.descuentoPct r == 0)%Q
  /\ App.diasVigencia r = 3%Q /\ App.meses r = 24%Q /\ App.separacion r = 0%Q
  /\ ((p == 0)%Q \/ (6000 <= p)%Q -> (App.inicial r == 6000)%Q)
  /\ (~ (p == 0)%Q -> (p < 6000)%Q -> (App.inicial r == p)%Q)
  /\ ((0 <= p)%Q ->
      let r' := App.recalcProforma None fechaEn r in
      (App.precioRegular r' == p)%Q
      /\ (App.precioPromocional r' == p)%Q
      /\ (App.descuentoSoles r' == 0)%Q
      /\ (App.descuentoPct r' == 0)%Q
      /\ App.diasVigencia r' = 3%Q /\ App.meses r' = 24%Q
      /\ (App.separacion r' == 0)%Q
      /\ (App.inicial r' == 6000)%Q).
Proof.
  intros r p.
  assert (Hds : (App.descuentoSoles r == 0)%Q).
  { change (App.descuentoSoles r) with (JS.Math_max (p - p) 0).
    rewrite Math_max_id by lra. ring. }
  assert (Hdp : (App.descuentoPct r == 0)%Q).
  { change (App.descuentoPct r)
      with (if JS.truthyNum p then JS.Math_max ((p - p) / p * 100) 0 else 0%Q).
    destruct (JS.truthyNum p) eqn:E; [|reflexivity].
    assert (Hz : ((p - p) / p * 100 == 0)%Q).
    { assert (Hz0 : (p - p == 0)%Q) by ring. unfold Qdiv. rewrite Hz0. ring. }
    unfold JS.Math_max. rewrite Hz. reflexivity. }
  assert (Hini : App.inicial r
                 = App.clamp 6000 6000 (if JS.truthyNum p then p else 6000%Q))
    by reflexivity.
  assert (Hle : (App.inicial r <= 6000)%Q).
  { rewrite Hini. unfold App.clamp, JS.Math_min. apply Q.le_min_l. }
  split; [reflexivity|]. split; [reflexivity|]. split; [exact Hds|].
  split; [exact Hdp|]. split; [reflexivity|]. split; [reflexivity|].
  split; [reflexivity|]. split; [|split].
  - intros Hp. rewrite Hini. unfold App.clamp, JS.Math_min, JS.Math_max.
    change (Qmax 6000 6000) with 6000%Q.
    destruct (JS.truthyNum p) eqn:E; [|reflexivity].
    apply Q.min_l. destruct Hp as [Hp|Hp]; [|exact Hp].
    apply truthyNum_true in E. contradiction.
  - intros Hnz Hlt. rewrite Hini. unfold App.clamp, JS.Math_min, JS.Math_max.
    change (Qmax 6000 6000) with 6000%Q.
    destruct (JS.truthyNum p) eqn:E.
    + apply Q.min_r. lra.
    + apply truthyNum_false in E. contradiction.
  - intros Hp r'.
    assert (Hreg : (App.precioRegular r' == p)%Q).
    { change (App.precioRegular r') with (JS.Math_max p 0). by apply Math_max_id. }
    assert (Hpr : (App.precioPromocional r' == p)%Q).
    { change (App.precioPromocional r')
        with (App.clamp (JS.Math_max p 0) 0 (JS.Math_max p 0)).
      rewrite clamp_inside; [by apply Math_max_id | apply Math_max_nonneg | lra]. }
    assert (Hds' : (App.descuentoSoles r' == 0)%Q).
    { change (App.descuentoSoles r')
        with (JS.Math_max (App.precioRegular r' - App.precioPromocional r') 0).
      rewrite Math_max_id by lra. lra. }
    split; [exact Hreg|]. split; [exact Hpr|]. split; [exact Hds'|].
    split; [|split; [reflexivity|split; [reflexivity|split; [reflexivity|]]]].
    + change (App.descuentoPct r')
        with (if JS.truthyNum (App.precioRegular r')
              then App.descuentoSoles r' / App.precioRegular r' * 100 else 0)%Q.
      destruct (JS.truthyNum (App.precioRegular r')); [|reflexivity].
      rewrite Hds'. unfold Qdiv. ring.
    + apply recalcProforma_inicial. exact Hle.
Qed.

(** ** The row mappers side by side *)

Lemma cleanNumber_cell `{Host} (row : Row) (k : string) :
  Server.cleanNumber (Server.cell row k) = App.cleanNumber (row !! k).
Proof. unfold Server.cell. destruct (row !! k) as [[|c r]|]; reflexivity. Qed.

Lemma normalizeStatus_fallback (x : option string) (n : string) :
  n = JS.toUpperCase
        (JS.trim (match x with None | Some EmptyString => "LIBRE" | Some s => s end)) ->
  Server.normalizeStatus x
  = Server.normalizeStatus
      (Some (match Some n with None | Some EmptyString => "LIBRE" | Some s => s end))
  /\ Server.normalizeStatus x
     = (if bool_decide (n ∈ Server.ALLOWED_STATUS) then n else "LIBRE").
Proof.
  intros Hn.
  assert (Hsrv : Server.normalizeStatus x
                 = (if bool_decide (n ∈ Server.ALLOWED_STATUS) then n else "LIBRE")).
  { unfold Server.normalizeStatus. cbv zeta. rewrite <- Hn. reflexivity. }
  split; [|exact Hsrv]. rewrite Hsrv.
  destruct n as [|c r] eqn:En; [reflexivity|]. rewrite <- En in *.
  rewrite normalizeStatus_via. cbv zeta.
  assert (Hfix : JS.toUpperCase (JS.trim n) = n).
  { rewrite Hn at 1. rewrite <- trim_toUpperCase, toUpperCase_idem, trim_toUpperCase.
    rewrite trim_idem. symmetry. exact Hn. }
  rewrite Hfix. reflexivity.
Qed.

(** X13. The client's CSV fallback reads a row as the server does: a
    row dropped by one is dropped by the other, and the lots agree on
    every member but the status.  The fallback keeps whatever the
    trimmed, uppercased cell says (LIBRE when empty); the server's
    status is the normalisation of that, so they agree exactly when the
    cell names one of the three statuses or is empty. *)
Theorem fallback_agrees_with_server `{Host} (row : Row) :
  (Server.mapRowToLote row = None <-> App.fallbackRow row = [])
  /\ (forall l, Server.mapRowToLote row = Some l ->
      exists l',
        App.fallbackRow row = [l']
        /\ id l' = id l /\ mz l' = mz l /\ lote l' = lote l
        /\ areaM2 l' = areaM2 l /\ price l' = price l
        /\ asesor l' = asesor l /\ cliente l' = cliente l
        /\ comentario l' = comentario l
        /\ ultimaModificacion l' = ultimaModificacion l
        /\ condicion l = Server.normalizeStatus (Some (condicion l'))
        /\ (condicion l' ∈ Server.ALLOWED_STATUS -> condicion l' = condicion l)
        /\ (condicion l' ∉ Server.ALLOWED_STATUS -> condicion l = "LIBRE")).
Proof.
  unfold Server.mapRowToLote, App.fallbackRow, Server.normalizeText.
  rewrite !cleanNumber_cell.
  destruct (JS.toUpperCase (JS.trim (default "" (row !! "MZ")))) as [|c r];
    [split; [by split | discriminate]|].
  destruct (JS.parseInt (JS.trim (default "" (row !! "LOTE")))) as [n|];
    [|split; [by split | discriminate]].
  split; [split; discriminate|].
  intros l [= <-]. eexists. split; [reflexivity|]. cbn [id mz lote areaM2 price asesor
    cliente comentario ultimaModificacion condicion].
  do 9 (split; [reflexivity|]).
  destruct (normalizeStatus_fallback (row !! "CONDICION") _ eq_refl) as [Hvia Hsrv].
  split; [exact Hvia|].
  set (n0 := JS.toUpperCase (JS.trim match row !! "CONDICION" with
                                     | Some (String _ _ as s) => s
                                     | _ => "LIBRE"
                                     end)) in *.
  rewrite Hsrv. destruct n0 as [|c0 r0].
  - split; [reflexivity|]. intros _. reflexivity.
  - split; intros Hin; case_bool_decide; done.
Qed.

Lemma seed_normalizeStatus (x : option string) :
  Seed.normalizeStatus x = Server.normalizeStatus x.
Proof.
  unfold Seed.normalizeStatus, Server.normalizeStatus, Server.ALLOWED_STATUS.
  cbv zeta. generalize (JS.toUpperCase (JS.trim match x with
                                               | Some (String _ _ as s) => s
                                               | _ => "LIBRE"
                                               end)) as n.
  intros n. repeat case_bool_decide; simpl; try reflexivity;
    rewrite ?elem_of_cons, ?elem_of_nil in *; intuition congruence.
Qed.

Lemma db_orUndefined_trim (s : string) :
  Db.orUndefined (Some (JS.trim s)) = Server.orUndefined (JS.trim s).
Proof. destruct (JS.trim s); reflexivity. Qed.

(** X14. The two backends serve the same lot for a CSV row: the seed
    script keeps exactly the rows the CSV server keeps, and the lot the
    database adapter makes of a seeded row has the id, block, lot
    number, status and free-text members of the CSV server's lot; its
    area and price are what the seed's own number cleaner reads. *)
Theorem seeded_lot_agrees `{Host} (row : Row) :
  (SeedScript.seedRow row = None <-> Server.mapRowToLote row = None)
  /\ (forall d, SeedScript.seedRow row = Some d ->
      exists l,
        Server.mapRowToLote row = Some l
        /\ id (Db.mapDbRowToLote d) = id l
        /\ mz (Db.mapDbRowToLote d) = mz l
        /\ lote (Db.mapDbRowToLote d) = lote l
        /\ condicion (Db.mapDbRowToLote d) = condicion l
        /\ asesor (Db.mapDbRowToLote d) = asesor l
        /\ cliente (Db.mapDbRowToLote d) = cliente l
        /\ comentario (Db.mapDbRowToLote d) = comentario l
        /\ ultimaModificacion (Db.mapDbRowToLote d) = ultimaModificacion l
        /\ areaM2 (Db.mapDbRowToLote d) = Seed.cleanNumber (Server.cell row "AREA")
        /\ price (Db.mapDbRowToLote d) = Seed.cleanNumber (Server.cell row "PRECIO")).
Proof.
  unfold SeedScript.seedRow, Server.mapRowToLote, Seed.normalizeText,
    Server.normalizeText.
  destruct (JS.toUpperCase (JS.trim (default "" (row !! "MZ")))) as [|c r] eqn:Emz;
    [split; [by split | discriminate]|].
  destruct (JS.parseInt (JS.trim (default "" (row !! "LOTE")))) as [n|];
    [|split; [by split | discriminate]].
  split; [split; discriminate|].
  intros d [= <-]. eexists. split; [reflexivity|].
  unfold Db.mapDbRowToLote. cbn [id mz lote areaM2 price asesor cliente comentario
    ultimaModificacion condicion Db.db_id Db.db_mz Db.db_lote Db.db_area Db.db_precio
    Db.db_condicion Db.db_asesor Db.db_cliente Db.db_comentario
    Db.db_ultima_modificacion].
  rewrite !db_orUndefined_trim.
  split.
  { unfold LotesService.toLoteId, Server.toLoteId. rewrite <- Emz.
    rewrite trim_toUpperCase, trim_idem, toUpperCase_idem. reflexivity. }
  do 2 (split; [reflexivity|]).
  split.
  { rewrite seed_normalizeStatus. apply normalizeStatus_idem. }
  repeat split; reflexivity.
Qed.

(** ** The database-backed update *)
Section DbUpdate.
Context `{Host}.

Lemma updateLoteById_missing now (table : Db.Table) id_ payload :
  table !! requestedId id_ = None ->
  Db.updateLoteById now table id_ payload = (None, table).
Proof.
  intros Hnone. unfold Db.updateLoteById. cbv zeta.
  change (JS.toUpperCase (JS.trim id_)) with (requestedId id_). rewrite Hnone. reflexivity.
Qed.

(** X15. The serverless PUT route changes the table only when it
    answers 200: another method gets 405 with [Allow: PUT], missing
    credentials give 500, an id that is not a key of the table (after
    trimming and uppercasing) gives 404, and in all three cases the
    table is returned as it was. *)
Theorem handler_errors_leave_table now (configured : bool) (method id_ : string)
    (body : Payload) (table : Db.Table) :
  (method <> "PUT" ->
   Api.handler now configured method id_ body table = (Api.MethodNotAllowed "PUT", table))
  /\ (configured = false ->
      Api.handler now configured "PUT" id_ body table = (Api.ServerError, table))
  /\ (configured = true -> table !! requestedId id_ = None ->
      Api.handler now configured "PUT" id_ body table = (Api.NotFound, table))
  /\ ((forall item, fst (Api.handler now configured method id_ body table) <> Api.Ok item)
      -> snd (Api.handler now configured method id_ body table) = table).
Proof.
  split; [|split; [|split]].
  - intros Hm. unfold Api.handler. apply String.eqb_neq in Hm. rewrite Hm. reflexivity.
  - intros ->. reflexivity.
  - intros -> Hnone. unfold Api.handler. simpl.
    rewrite (updateLoteById_missing now table id_ body Hnone). reflexivity.
  - intros Hno. unfold Api.handler in *.
    destruct (String.eqb method "PUT"); simpl in *; [|reflexivity].
    destruct configured; simpl in *; [|reflexivity].
    unfold Db.updateLoteById in *. cbv zeta in *.
    destruct (table !! JS.toUpperCase (JS.trim id_)); simpl in *; [|reflexivity].
    exfalso. eapply Hno. reflexivity.
Qed.

(** X16. A database update that finds its row replaces status, the
    three free texts and the time stamp from the request alone: members
    the request leaves out are reset (status LIBRE, texts absent), not
    kept as the CSV server keeps them.  Id, block, lot number and area
    stay, the price stays when the request has none, no other row
    changes and the table keeps its keys. *)
Theorem updateLoteById_found now (table : Db.Table) id_ payload (row : Db.DbRow) :
  table !! requestedId id_ = Some row ->
  exists item table',
    Db.updateLoteById now table id_ payload = (Some item, table')
    /\ id item = Db.db_id row /\ mz item = Db.db_mz row /\ lote item = Db.db_lote row
    /\ areaM2 item = Db.db_area row
    /\ condicion item = Server.normalizeStatus (p_estado payload)
    /\ asesor item = Server.orUndefined (JS.trim (default "" (p_asesor payload)))
    /\ cliente item = Server.orUndefined (JS.trim (default "" (p_cliente payload)))
    /\ comentario item = Server.orUndefined (JS.trim (default "" (p_comentario payload)))
    /\ ultimaModificacion item = Some (Server.toCurrentTimestamp now)
    /\ (p_estado payload = None -> condicion item = "LIBRE")
    /\ (p_asesor payload = None -> asesor item = None)
    /\ (p_cliente payload = None -> cliente item = None)
    /\ (p_comentario payload = None -> comentario item = None)
    /\ (p_price payload = JS.VUndefined -> price item = Db.db_precio row)
    /\ (forall k, k <> requestedId id_ -> table' !! k = table !! k)
    /\ Db.mapDbRowToLote <$> table' !! requestedId id_ = Some item
    /\ dom table' = dom table.
Proof.
  intros Hrow. unfold Db.updateLoteById. cbv zeta.
  change (JS.toUpperCase (JS.trim id_)) with (requestedId id_). rewrite Hrow.
  set (data := Db.applyPatch (Db.buildPatch now payload) row).
  assert (Hcond : condicion (Db.mapDbRowToLote data)
                  = Server.normalizeStatus (p_estado payload))
    by apply normalizeStatus_idem.
  assert (Htext : forall o, Db.orUndefined (Some (Db.normalizeText o))
                            = Server.orUndefined (JS.trim (default "" o)))
    by (intros o; apply db_orUndefined_trim).
  assert (Hstamp : ultimaModificacion (Db.mapDbRowToLote data)
                   = Some (Server.toCurrentTimestamp now)).
  { destruct (toCurrentTimestamp_trimmed now) as [_ Hne].
    change (ultimaModificacion (Db.mapDbRowToLote data))
      with (Db.orUndefined (Some (Server.toCurrentTimestamp now))).
    destruct (Server.toCurrentTimestamp now); [congruence | reflexivity]. }
  exists (Db.mapDbRowToLote data), (<[requestedId id_ := data]> table).
  split; [reflexivity|]. do 4 (split; [reflexivity|]).
  split; [exact Hcond|]. do 3 (split; [apply Htext|]). split; [exact Hstamp|].
  split; [intros E; rewrite Hcond, E; reflexivity|].
  split; [intros E; change (asesor (Db.mapDbRowToLote data))
            with (Db.orUndefined (Some (Db.normalizeText (p_asesor payload))));
          rewrite E; reflexivity|].
  split; [intros E; change (cliente (Db.mapDbRowToLote data))
            with (Db.orUndefined (Some (Db.normalizeText (p_cliente payload))));
          rewrite E; reflexivity|].
  split; [intros E; change (comentario (Db.mapDbRowToLote data))
            with (Db.orUndefined (Some (Db.normalizeText (p_comentario payload))));
          rewrite E; reflexivity|].
  split; [intros E; unfold data, Db.applyPatch, Db.buildPatch; simpl; rewrite E;
          reflexivity|].
  split; [intros k Hk; by rewrite lookup_insert_ne|].
  split; [rewrite lookup_insert_eq; reflexivity|].
  apply dom_insert_lookup_L. eauto.
Qed.

End DbUpdate.

Lemma updateLoteById_found_witness :
  exampleTable !! requestedId " a-07 " = Some exampleDbRow
  /\ exists item table',
       @Db.updateLoteById exampleHost exampleNow exampleTable " a-07 " examplePatch
       = (Some item, table')
       /\ Db.db_condicion exampleDbRow = Some "VENDIDO"
       /\ Db.db_asesor exampleDbRow = Some "Ana"
       /\ condicion item = "SEPARADO" /\ asesor item = None
       /\ cliente item = Some "Juan Perez" /\ price item = Some 45000%Q.
Proof.
  assert (H0 : exampleTable !! requestedId " a-07 " = Some exampleDbRow)
    by (vm_compute; reflexivity).
  split; [exact H0|].
  destruct (@updateLoteById_found exampleHost exampleNow exampleTable " a-07 "
              examplePatch exampleDbRow H0)
    as (item & table' & Hupd & _ & _ & _ & _ & Hcond & _ & Hcli & _ & _ & _ & Hases
        & _ & _ & Hprice & _).
  exists item, table'. split; [exact Hupd|]. split; [reflexivity|].
  split; [reflexivity|]. split; [exact Hcond|]. split; [exact (Hases eq_refl)|].
  split; [exact Hcli | exact (Hprice eq_refl)].
Defined.

(** ** Batches of the seed upload *)

Lemma batchesFrom_spec {A} (size : nat) : forall (fuel : nat) (l : list A),
  (0 < size)%nat -> (length l <= fuel)%nat ->
  concat (SeedScript.batchesFrom fuel size l) = l
  /\ Forall (fun c => (0 < length c <= size)%nat) (SeedScript.batchesFrom fuel size l)
  /\ (forall i c, SeedScript.batchesFrom fuel size l !! i = Some c ->
        (S i < length (SeedScript.batchesFrom fuel size l))%nat -> length c = size)
  /\ (l = [] <-> SeedScript.batchesFrom fuel size l = []).
Proof.
  induction fuel as [|fuel IH]; intros l Hsize Hlen.
  - destruct l; [|simpl in Hlen; lia]. simpl. repeat split; try constructor.
    intros i c Hc. by rewrite lookup_nil in Hc.
  - destruct l as [|x l]; [simpl; repeat split; try constructor;
                            intros i c Hc; by rewrite lookup_nil in Hc|].
    cbn [SeedScript.batchesFrom].
    assert (Hdrop : (length (drop size (x :: l)) <= fuel)%nat)
      by (rewrite length_drop; simpl in *; lia).
    destruct (IH (drop size (x :: l)) Hsize Hdrop) as (Hcat & Hall & Hfull & Hnil).
    split; [cbn [concat]; rewrite Hcat; apply take_drop|].
    split; [|split; [|split; intros E; discriminate E]].
    + constructor; [|exact Hall]. rewrite length_take. simpl. lia.
    + intros [|i] c Hc Hi.
      * injection Hc as <-. rewrite length_take.
        destruct (SeedScript.batchesFrom fuel size (drop size (x :: l))) eqn:E;
          [simpl in Hi; lia|].
        assert (Hne : drop size (x :: l) <> []).
        { intros Hd. apply Hnil in Hd. congruence. }
        assert (Hlt : (size < length (x :: l))%nat).
        { destruct (Nat.le_gt_cases (length (x :: l)) size) as [Hle|Hgt]; [|exact Hgt].
          exfalso. apply Hne. by apply drop_ge. }
        lia.
      * simpl in Hc, Hi. apply (Hfull i c Hc). lia.
Qed.

(** X17. The seed uploads every mapped row exactly once and in order:
    the batches put end to end are the mapped rows, no batch is empty
    or longer than 200, and every batch but the last holds exactly 200. *)
Theorem batches_cover {A} (l : list A) :
  concat (SeedScript.batches l) = l
  /\ Forall (fun c => (0 < length c <= 200)%nat) (SeedScript.batches l)
  /\ (forall i c, SeedScript.batches l !! i = Some c ->
        (S i < length (SeedScript.batches l))%nat -> length c = 200%nat)
  /\ (l = [] <-> SeedScript.batches l = []).
Proof.
  unfold SeedScript.batches, SeedScript.BATCH_SIZE.
  apply batchesFrom_spec; lia.
Qed.

(** ** Browser-local overrides *)

Lemma applyOverride_identity (item : Lote) (o : option Legacy.LoteOverride) :
  id (Legacy.applyOverride item o) = id item
  /\ mz (Legacy.applyOverride item o) = mz item
  /\ lote (Legacy.applyOverride item o) = lote item
  /\ areaM2 (Legacy.applyOverride item o) = areaM2 item
  /\ asesor (Legacy.applyOverride item o) = asesor item.
Proof. destruct o; repeat split; reflexivity. Qed.

(** X18. Overrides only shadow: the overridden list has as many lots as
    the canonical one, with the same ids, blocks, lot numbers, areas
    and advisers in the same order; a lot without an override is shown
    as it is, and with no overrides at all the list is unchanged. *)
Theorem applyOverrides_shadow (items : list Lote) (overrides : Legacy.Overrides) :
  length (Legacy.applyOverrides items overrides) = length items
  /\ id <$> Legacy.applyOverrides items overrides = id <$> items
  /\ mz <$> Legacy.applyOverrides items overrides = mz <$> items
  /\ lote <$> Legacy.applyOverrides items overrides = lote <$> items
  /\ areaM2 <$> Legacy.applyOverrides items overrides = areaM2 <$> items
  /\ asesor <$> Legacy.applyOverrides items overrides = asesor <$> items
  /\ (forall i l, items !! i = Some l -> overrides !! id l = None ->
        Legacy.applyOverrides items overrides !! i = Some l)
  /\ Legacy.applyOverrides items ∅ = items.
Proof.
  unfold Legacy.applyOverrides.
  split; [apply length_fmap|].
  assert (Hmap : forall {B} (f : Lote -> B),
    (forall item o, f (Legacy.applyOverride item o) = f item) ->
    f <$> ((fun item => Legacy.applyOverride item (overrides !! id item)) <$> items)
    = f <$> items).
  { intros B f Hf. rewrite <- list_fmap_compose. apply list_fmap_ext.
    intros i x _. simpl. apply Hf. }
  split; [apply Hmap; intros; apply applyOverride_identity|].
  split; [apply Hmap; intros; apply applyOverride_identity|].
  split; [apply Hmap; intros; apply applyOverride_identity|].
  split; [apply Hmap; intros; apply applyOverride_identity|].
  split; [apply Hmap; intros; apply applyOverride_identity|].
  split.
  - intros i l Hl Hnone. rewrite list_lookup_fmap, Hl. simpl. rewrite Hnone. reflexivity.
  - rewrite <- (list_fmap_id items) at 2. apply list_fmap_ext.
    intros i x _. rewrite lookup_empty. reflexivity.
Qed.

(** X19. An override written with [updateOverride] is what the lot
    shows next: each member of the patch replaces what was shown, a
    member the patch leaves out keeps what was shown before (an earlier
    override or the canonical value), and lots with another id are
    shown as before. *)
Theorem updateOverride_shows (item : Lote) (id_ : string) (patch : Legacy.LoteOverride)
    (current : Legacy.Overrides) :
  let before := Legacy.applyOverride item (current !! id item) in
  let after := Legacy.applyOverride item
                 (Legacy.updateOverride id_ patch current !! id item) in
  (id item <> id_ -> after = before)
  /\ (id item = id_ ->
      price after = match Legacy.o_price patch with Some v => v | None => price before end
      /\ condicion after = default (condicion before) (Legacy.o_condicion patch)
      /\ cliente after = match Legacy.o_cliente patch with
                         | Some c => Some c
                         | None => cliente before
                         end
      /\ id after = id item /\ mz after = mz item /\ lote after = lote item
      /\ areaM2 after = areaM2 item /\ asesor after = asesor item
      /\ comentario after = comentario item
      /\ ultimaModificacion after = ultimaModificacion item).
Proof.
  intros before after. unfold after, before, Legacy.updateOverride. split.
  - intros Hne. rewrite lookup_insert_ne by done. reflexivity.
  - intros E. subst id_. rewrite lookup_insert_eq. unfold Legacy.mergeOverride.
    destruct (current !! id item) as [prev|]; simpl;
      destruct (Legacy.o_price patch), (Legacy.o_condicion patch),
        (Legacy.o_cliente patch); repeat split; reflexivity.
Qed.

(** X20. The override history is capped: after [appendHistory] it holds
    at most 200 lines, the new line first, then the previous lines in
    their order, of which only the first 199 remain. *)
Theorem appendHistory_capped (now entry : string) (stored : option (list string)) :
  let history := Legacy.appendHistory now entry stored in
  (length history <= 200)%nat
  /\ length history = Nat.min 200 (S (length (default [] stored)))
  /\ history !! 0%nat = Some (now ++ " | " ++ entry)
  /\ (forall i, (S i < 200)%nat -> history !! S i = default [] stored !! i)
  /\ (forall i, (200 <= i)%nat -> history !! i = None).
Proof.
  intros history. unfold history, Legacy.appendHistory. cbv zeta.
  assert (Hlen : length (take 200 ((now ++ " | " ++ entry) :: default [] stored))
                 = Nat.min 200 (S (length (default [] stored))))
    by (rewrite length_take; reflexivity).
  split; [rewrite Hlen; lia|]. split; [exact Hlen|].
  split; [reflexivity|]. split.
  - intros i Hi. rewrite lookup_take_lt by exact Hi. reflexivity.
  - intros i Hi. apply lookup_ge_None. rewrite Hlen. lia.
Qed.

(** ** Saving from the seller's table *)





(** ** The shape of a time stamp *)

Lemma length_substring (s : string) : forall n m,
  (n + m <= String.length s)%nat -> String.length (substring n m s) = m.
Proof.
  induction s as [|c s IH]; intros [|n] [|m] Hle; simpl in *; try reflexivity; try lia.
  - rewrite (IH 0%nat m) by (simpl; lia). reflexivity.
  - apply IH. lia.
  - apply IH. lia.
Qed.

Lemma app_inj_length (a c b d : string) :
  String.length a = String.length c -> a ++ b = c ++ d -> a = c /\ b = d.
Proof.
  revert c. induction a as [|x a IH]; intros [|y c] Hlen; push_app; simpl in Hlen;
    try discriminate.
  - intros ->. by split.
  - intros [= -> E]. destruct (IH c) as [-> ->]; [lia | exact E | by split].
Qed.

Lemma pad2_length (n : Z) :
  (0 <= n < 100)%Z -> String.length (JS.padStart (JS.stringOfInt n) 2 "0") = 2%nat.
Proof.
  intros Hn. rewrite padStart_length. pose proof (stringOfInt_short n Hn). lia.
Qed.

Lemma pad2_inj (n m : Z) :
  (0 <= n)%Z -> (0 <= m)%Z ->
  JS.padStart (JS.stringOfInt n) 2 "0" = JS.padStart (JS.stringOfInt m) 2 "0" -> n = m.
Proof.
  intros Hn Hm E. destruct (padStart_digits n Hn) as [_ <-].
  destruct (padStart_digits m Hm) as [_ <-]. rewrite E. reflexivity.
Qed.

Lemma monthName_facts (m1 m2 : Z) :
  (0 <= m1 < 12)%Z -> (0 <= m2 < 12)%Z ->
  String.length (monthName m1) = 3%nat /\ (monthName m1 = monthName m2 -> m1 = m2).
Proof.
  intros H1 H2. unfold monthName.
  destruct (Z.ltb_spec m1 0) as [?|_]; [lia|]. destruct (Z.ltb_spec m2 0) as [?|_]; [lia|].
  rewrite <- (Z2Nat.id m1), <- (Z2Nat.id m2) by lia. rewrite !Nat2Z.id.
  assert (Hk1 : (Z.to_nat m1 < 12)%nat) by lia.
  assert (Hk2 : (Z.to_nat m2 < 12)%nat) by lia.
  revert Hk1 Hk2. generalize (Z.to_nat m1) as k1, (Z.to_nat m2) as k2. intros k1 k2 Hk1 Hk2.
  do 12 (destruct k1 as [|k1]; [split; [reflexivity|];
    do 12 (destruct k2 as [|k2]; [first [reflexivity | discriminate]|]); lia|]).
  lia.
Qed.

Lemma stringOfInt_long (y : Z) :
  (10 <= y)%Z -> (2 <= String.length (JS.stringOfInt y))%nat.
Proof.
  intros Hy. destruct (stringOfInt_digits y) as [Hc Hv]; [lia|].
  destruct (JS.stringOfInt y) as [|c [|d r]]; simpl in *; [lia | | lia].
  rewrite andb_true_r in Hc. unfold JS.isDigit in Hc.
  apply andb_prop in Hc as [_ Hhi]. apply Nat.leb_le in Hhi.
  unfold JS.digitValue in Hv. lia.
Qed.

Lemma year_suffix_length (y : Z) :
  (10 <= y)%Z -> String.length (JS.sliceLast 2 (JS.stringOfInt y)) = 2%nat.
Proof.
  intros Hy. pose proof (stringOfInt_long y Hy). unfold JS.sliceLast.
  apply length_substring. lia.
Qed.

(** X22. For clock readings within the calendar's ranges the stamp has
    18 characters, and two readings get the same stamp only if they
    agree on day, month, hour, minute and second and on the last two
    digits of the year: apart from the century the stamp loses nothing
    down to the second. *)
Theorem toCurrentTimestamp_decodes (d1 d2 : Date) :
  calendarDate d1 -> calendarDate d2 ->
  String.length (Server.toCurrentTimestamp d1) = 18%nat
  /\ (Server.toCurrentTimestamp d1 = Server.toCurrentTimestamp d2 ->
      getDate d1 = getDate d2 /\ getMonth d1 = getMonth d2
      /\ JS.sliceLast 2 (JS.stringOfInt (getFullYear d1))
         = JS.sliceLast 2 (JS.stringOfInt (getFullYear d2))
      /\ getHours d1 = getHours d2 /\ getMinutes d1 = getMinutes d2
      /\ getSeconds d1 = getSeconds d2).
Proof.
  intros (Hd1 & Hm1 & Hy1 & Hh1 & Hi1 & Hs1) (Hd2 & Hm2 & Hy2 & Hh2 & Hi2 & Hs2).
  unfold Server.toCurrentTimestamp. cbv zeta.
  fold (monthName (getMonth d1)). fold (monthName (getMonth d2)).
  destruct (monthName_facts (getMonth d1) (getMonth d2) Hm1 Hm2) as [Hml1 Hminj].
  destruct (monthName_facts (getMonth d2) (getMonth d1) Hm2 Hm1) as [Hml2 _].
  pose proof (pad2_length (getDate d1)) as Ld1.
  pose proof (pad2_length (getDate d2)) as Ld2.
  pose proof (pad2_length (getHours d1)) as Lh1.
  pose proof (pad2_length (getHours d2)) as Lh2.
  pose proof (pad2_length (getMinutes d1)) as Li1.
  pose proof (pad2_length (getMinutes d2)) as Li2.
  pose proof (pad2_length (getSeconds d1)) as Ls1.
  pose proof (year_suffix_length _ Hy1) as Ly1.
  pose proof (year_suffix_length _ Hy2) as Ly2.
  split.
  - rewrite !length_app_s, Ld1, Hml1, Ly1, Lh1, Li1, Ls1 by lia. reflexivity.
  - intros E.
    apply app_inj_length in E as [Edd E]; [|lia].
    change ("-" ++ ?x) with (String "-" x) in E. injection E as E.
    apply app_inj_length in E as [Emm E]; [|lia].
    change ("-" ++ ?x) with (String "-" x) in E. injection E as E.
    apply app_inj_length in E as [Eyy E]; [|lia].
    change (" " ++ ?x) with (String " " x) in E. injection E as E.
    apply app_inj_length in E as [Ehh E]; [|lia].
    change (":" ++ ?x) with (String ":" x) in E. injection E as E.
    apply app_inj_length in E as [Emi E]; [|lia].
    change (":" ++ ?x) with (String ":" x) in E. injection E as Ess.
    split; [apply pad2_inj; [lia | lia | exact Edd]|].
    split; [by apply Hminj|]. split; [exact Eyy|].
    split; [apply pad2_inj; [lia | lia | exact Ehh]|].
    split; apply pad2_inj; first [lia | assumption].
Qed.

Lemma toCurrentTimestamp_decodes_witness :
  calendarDate exampleNow
  /\ String.length (Server.toCurrentTimestamp exampleNow) = 18%nat
  /\ Server.toCurrentTimestamp exampleNow = "01-nov-26 09:05:00".
Proof.
  assert (H0 : calendarDate exampleNow) by (unfold calendarDate; simpl; lia).
  split; [exact H0|].
  destruct (toCurrentTimestamp_decodes exampleNow exampleNow H0 H0) as [Hlen _].
  split; [exact Hlen | reflexivity].
Defined.

(** ** Columns an update leaves alone *)

(** X23. [PUT] writes six cells of the matched row and no other: MZ,
    LOTE, AREA and any column the server does not know keep their
    content, and PRECIO keeps it too when the request has no price. *)
Theorem patchRow_untouched `{Host} now payload (row : Row) (column : string) :
  column ∉ ["CONDICION"; "ASESOR"; "CLIENTE"; "COMENTARIO"; "ULTIMA_MODIFICACION";
            "PRECIO"] ->
  Server.patchRow now payload row !! column = row !! column
  /\ Server.patchRow now payload row !! "MZ" = row !! "MZ"
  /\ Server.patchRow now payload row !! "LOTE" = row !! "LOTE"
  /\ Server.patchRow now payload row !! "AREA" = row !! "AREA"
  /\ (p_price payload = JS.VUndefined ->
      Server.patchRow now payload row !! "PRECIO" = row !! "PRECIO").
Proof.
  intros Hcol. rewrite !not_elem_of_cons in Hcol.
  destruct Hcol as (H1 & H2 & H3 & H4 & H5 & H6 & _).
  split; [|split; [apply patchRow_MZ|split; [apply patchRow_LOTE|split;
    [apply patchRow_AREA|]]]].
  - unfold Server.patchRow. cbv zeta.
    destruct (p_price payload); rewrite ?lookup_insert_ne by done; reflexivity.
  - intros E. rewrite patchRow_PRECIO, E. reflexivity.
Qed.

Lemma patchRow_untouched_witness :
  ("NOTA" ∉ ["CONDICION"; "ASESOR"; "CLIENTE"; "COMENTARIO"; "ULTIMA_MODIFICACION";
             "PRECIO"])
  /\ @Server.patchRow exampleHost exampleNow examplePatch
       (<["NOTA" := "esquina"]> exampleRow) !! "NOTA" = Some "esquina".
Proof.
  assert (H0 : "NOTA" ∉ ["CONDICION"; "ASESOR"; "CLIENTE"; "COMENTARIO";
                         "ULTIMA_MODIFICACION"; "PRECIO"]).
  { rewrite !not_elem_of_cons. repeat split; try discriminate. apply not_elem_of_nil. }
  split; [exact H0|].
  destruct (@patchRow_untouched exampleHost exampleNow examplePatch
              (<["NOTA" := "esquina"]> exampleRow) "NOTA" H0) as [Hc _].
  rewrite Hc. reflexivity.
Defined.
